(** * Ontime Display Bridge: the event translation and rendering engine

    A shallow embedding of [Ontime_Bridge_v0_1.ino] (the WebSocket event
    handler, the title scroller and the digit-pair encoder) together with
    the properties its specification states about them.

    The sketch runs on an ESP8266: [int], [long] and [unsigned int] are
    32 bits wide, [byte] is 8 bits wide. *)

From Stdlib Require Import ZArith String Ascii List Bool Lia DecimalString.
Import ListNotations.

Set Warnings "-register-all".

Local Open Scope string_scope.
Local Open Scope Z_scope.

(** ** Machine integers *)

Module CInt.

Definition INT_MIN : Z := - 2147483648.
Definition INT_MAX : Z := 2147483647.

(** Two's complement reduction of a mathematical integer to [int]/[long]. *)
Definition wrap (z : Z) : Z := (z + 2147483648) mod 4294967296 - 2147483648.

(** Conversion to [unsigned int]/[unsigned long]. *)
Definition to_unsigned (z : Z) : Z := z mod 4294967296.

(** Conversion to [byte] (uint8_t). *)
Definition to_byte (z : Z) : Z := z mod 256.

(** A value of type [int] or [long]. *)
Definition in_range (z : Z) : Prop := INT_MIN <= z <= INT_MAX.

(** [abs(x)]: the negation is computed in [long]. On the most negative
    value it overflows, which the language leaves undefined; the model takes
    the two's complement result, the value itself. *)
Definition abs (x : Z) : Z := if x <? 0 then wrap (- x) else x.

(** [a / b] and [a % b] truncate toward zero. *)
Definition div (a b : Z) : Z := Z.quot a b.
Definition rem (a b : Z) : Z := Z.rem a b.

End CInt.

(** ** Arduino [String] *)

Module WString.

(** [s.length()], an [unsigned int]. *)
Definition len (s : string) : Z := Z.of_nat (String.length s).

(** [s.substring(from, to)] on [unsigned int] indices: the bounds are
    swapped when out of order, an out-of-range start gives the empty
    string and the end is clipped to the length. *)
Definition substring (s : string) (from to : Z) : string :=
  let lo := if to <? from then to else from in
  let hi := if to <? from then from else to in
  if len s <=? lo then ""
  else
    let hi := if len s <? hi then len s else hi in
    String.substring (Z.to_nat lo) (Z.to_nat (hi - lo)) s.

(** [String(n)] for an [int]: the decimal numeral, with a sign when
    negative. *)
Definition of_int (n : Z) : string := NilZero.string_of_int (Z.to_int n).

(** Assignment or construction from a [const char*]: a null pointer gives
    the empty string. *)
Definition of_cstr (p : option string) : string :=
  match p with
  | Some s => s
  | None => ""
  end.

End WString.

(** ** Arduino_JSON values *)

Module JSON.

(** The decoded tree held by a [JSONVar]. [undefined] is the value
    [JSON.parse] gives for a text that does not parse. A number carries
    its integer part; an object keeps its members in document order. *)
Inductive JSONVar : Type :=
| undefined
| null
| boolean (b : bool)
| number (n : Z)
| str (s : string)
| array (items : list JSONVar)
| object (members : list (string * JSONVar)).

Definition typeof (v : JSONVar) : string :=
  match v with
  | undefined => "undefined"
  | null => "null"
  | boolean _ => "boolean"
  | number _ => "number"
  | str _ => "string"
  | array _ => "array"
  | object _ => "object"
  end.

Fixpoint lookup (key : string) (members : list (string * JSONVar)) : option JSONVar :=
  match members with
  | [] => None
  | (k, v) :: rest => if String.eqb k key then Some v else lookup key rest
  end.

(** [v.hasOwnProperty(key)]: false on anything but an object. *)
Definition hasOwnProperty (v : JSONVar) (key : string) : bool :=
  match v with
  | object members =>
      match lookup key members with
      | Some _ => true
      | None => false
      end
  | _ => false
  end.

(** [v[key]]: the first member of that name. *)
Definition get (v : JSONVar) (key : string) : JSONVar :=
  match v with
  | object members =>
      match lookup key members with
      | Some x => x
      | None => null
      end
  | _ => null
  end.

(** The cast of [v] to [const char*]: the text of a string node, a null
    pointer otherwise. *)
Definition to_cstr (v : JSONVar) : option string :=
  match v with
  | str s => Some s
  | _ => None
  end.

(** The cast of [v] to [long]: the integer view of a number node, saturated to the
    range of [int] by the parser, and 0 for anything else. *)
Definition to_long (v : JSONVar) : Z :=
  match v with
  | number n => Z.max CInt.INT_MIN (Z.min CInt.INT_MAX n)
  | _ => 0
  end.

End JSON.

Import JSON.

(** ** Helper functions of the sketch *)

(** [byte formatByte(int value)]: BCD with swapped nibbles. *)
Definition formatByte (value : Z) : Z :=
  let tens := CInt.div value 10 in
  let ones := CInt.rem value 10 in
  CInt.to_byte (Z.lor (Z.shiftl ones 4) tens).

(** Decoding a digit pair, as the specification describes it: the low nibble
    is the tens digit, the high nibble the ones digit. *)
Definition decodeByte (b : Z) : Z :=
  let tens := Z.land b 15 in
  let ones := Z.shiftr b 4 in
  10 * tens + ones.


(** ** Global state and the device monad *)

(** The globals of the sketch that the handler and the scroller touch. *)
Record Engine : Type := mkEngine {
  ontime_host : string;
  ontime_port : Z;
  currentEventTitle : string;
  lastScrollTime : Z;
  scrollIndex : Z
}.

(** The state the sketch starts in. *)
Definition boot : Engine :=
  {| ontime_host := "example.com";
     ontime_port := 443;
     currentEventTitle := "Ontime";
     lastScrollTime := 0;
     scrollIndex := 0 |}.

(** What the sketch sends to its peripherals: the debug port [Serial], the
    numeric display on [Serial1] and the character display [lcd]. *)
Inductive Output : Type :=
| Serial_println (s : string)
| Serial_printf (fmt host : string) (port : Z)
| Serial1_write (b : Z)
| lcd_clear
| lcd_setCursor (col row : Z)
| lcd_print (s : string).

Record Outcome (A : Type) : Type := mkOutcome {
  value : A;
  final : Engine;
  emitted : list Output
}.
Arguments mkOutcome {A} _ _ _.
Arguments value {A} _.
Arguments final {A} _.
Arguments emitted {A} _.

(** A command reads and updates the globals and appends to the outputs. *)
Definition Dev (A : Type) : Type := Engine -> Outcome A.

Definition ret {A : Type} (a : A) : Dev A :=
  fun st => mkOutcome a st [].

Definition bind {A B : Type} (m : Dev A) (k : A -> Dev B) : Dev B :=
  fun st =>
    let r1 := m st in
    let r2 := k (value r1) (final r1) in
    mkOutcome (value r2) (final r2) (emitted r1 ++ emitted r2)%list.

Declare Scope dev_scope.
Delimit Scope dev_scope with dev.
Notation "x <- m ;; k" := (bind m (fun x => k))
  (at level 61, m at next level, right associativity) : dev_scope.
Notation "m ;; k" := (bind m (fun _ => k))
  (at level 61, right associativity) : dev_scope.
Local Open Scope dev_scope.

Definition read {A : Type} (global : Engine -> A) : Dev A :=
  fun st => mkOutcome (global st) st [].

Definition emit (o : Output) : Dev unit :=
  fun st => mkOutcome tt st [o].

Definition set_currentEventTitle (t : string) : Dev unit :=
  fun st => mkOutcome tt
    {| ontime_host := ontime_host st; ontime_port := ontime_port st;
       currentEventTitle := t;
       lastScrollTime := lastScrollTime st; scrollIndex := scrollIndex st |} [].

Definition set_lastScrollTime (t : Z) : Dev unit :=
  fun st => mkOutcome tt
    {| ontime_host := ontime_host st; ontime_port := ontime_port st;
       currentEventTitle := currentEventTitle st;
       lastScrollTime := t; scrollIndex := scrollIndex st |} [].

Definition set_scrollIndex (i : Z) : Dev unit :=
  fun st => mkOutcome tt
    {| ontime_host := ontime_host st; ontime_port := ontime_port st;
       currentEventTitle := currentEventTitle st;
       lastScrollTime := lastScrollTime st; scrollIndex := i |} [].

(** [if (c) body] with no else branch. *)
Definition when (c : bool) (body : Dev unit) : Dev unit :=
  if c then body else ret tt.

(** [while (line.length() < 16) line += " "], unrolled at most [fuel]
    times. *)
Fixpoint pad_loop (fuel : nat) (line : string) : string :=
  match fuel with
  | O => line
  | S fuel' =>
      if WString.len line <? 16 then pad_loop fuel' (line ++ " ") else line
  end.

(** Sixteen rounds are enough for the loop to reach its exit test. *)
Definition pad16 (line : string) : string := pad_loop 16 line.

(** [printTwoDigits]: pads a number on the LCD. *)
Definition printTwoDigits (number : Z) : Dev unit :=
  when (number <? 10) (emit (lcd_print "0")) ;;
  emit (lcd_print (WString.of_int number)).

(** ** The title scroller *)

Definition scrollInterval : Z := 400.

(** [updateLcdTitle]; [now] and [now'] are the two readings of [millis()]. *)
Definition updateLcdTitle (now now' : Z) : Dev unit :=
  last <- read lastScrollTime ;;
  when (scrollInterval <=? CInt.to_unsigned (now - last))
    (set_lastScrollTime now' ;;
     emit (lcd_setCursor 0 0) ;;
     title <- read currentEventTitle ;;
     if 16 <? WString.len title then
       let scrollBuffer := (title ++ "   ") ++ title in
       idx <- read scrollIndex ;;
       let toPrint :=
         WString.substring scrollBuffer
           (CInt.to_unsigned idx) (CInt.to_unsigned (CInt.wrap (idx + 16))) in
       emit (lcd_print toPrint) ;;
       set_scrollIndex (CInt.wrap (idx + 1)) ;;
       idx <- read scrollIndex ;;
       when (CInt.to_unsigned (WString.len title + 3) <? CInt.to_unsigned idx)
         (set_scrollIndex 0)
     else
       let line0 := pad16 title in
       emit (lcd_print line0)).

(** ** The WebSocket event handler *)

Inductive WStype_t : Type :=
| WStype_ERROR
| WStype_DISCONNECTED
| WStype_CONNECTED
| WStype_TEXT
| WStype_BIN
| WStype_FRAGMENT_TEXT_START
| WStype_FRAGMENT_BIN_START
| WStype_FRAGMENT
| WStype_FRAGMENT_FIN
| WStype_PING
| WStype_PONG.

(** The string a member holds, as the handler reads it into a [String]. *)
Definition field (v : JSONVar) (key : string) : string :=
  WString.of_cstr (to_cstr (get v key)).

(** Step 3: the time in milliseconds. *)
Definition currentMs (timer : JSONVar) : Z :=
  if hasOwnProperty timer "current" then to_long (get timer "current") else 0.

(** Step 4: milliseconds to minutes and seconds. *)
Definition totalSeconds (currentMs : Z) : Z :=
  let absMs := CInt.abs currentMs in
  let totalSeconds := CInt.div absMs 1000 in
  if (0 <? currentMs) && negb (CInt.rem absMs 1000 =? 0)
  then CInt.wrap (totalSeconds + 1)
  else totalSeconds.

Definition minutes (currentMs : Z) : Z :=
  let minutes := CInt.div (totalSeconds currentMs) 60 in
  if 99 <? minutes then 99 else minutes.

Definition seconds (currentMs : Z) : Z :=
  CInt.rem (totalSeconds currentMs) 60.

(** Step 5: the colour name. *)
Definition cStr (timer : JSONVar) (currentMs : Z) : string :=
  let cStr := "green" in
  if hasOwnProperty timer "color" then field timer "color"
  else if hasOwnProperty timer "colour" then field timer "colour"
  else if currentMs <? 0 then "red"
  else if hasOwnProperty timer "phase" then
    let phase := field timer "phase" in
    let cStr := if (phase =? "overtime")%string then "red" else cStr in
    let cStr := if (phase =? "warn")%string then "amber" else cStr in
    let cStr := if (phase =? "warning")%string then "amber" else cStr in
    cStr
  else cStr.

(** Step 6: the colour byte and the status text, then the override of the
    status text when the timer is stopped. *)
Definition colorByte (cStr : string) : Z :=
  if (cStr =? "red")%string then 2
  else if (cStr =? "amber")%string then 3
  else 1.

Definition lcdStatus (timer : JSONVar) (cStr : string) : string :=
  let lcdStatus :=
    if (cStr =? "red")%string then "Over"
    else if (cStr =? "amber")%string then "Warn"
    else "Running" in
  if hasOwnProperty timer "playback" then
    let playback := field timer "playback" in
    if negb (playback =? "play")%string && negb (playback =? "start")%string
    then "Stopped"
    else lcdStatus
  else lcdStatus.

(** Step 10: row 1 of the LCD. *)
Definition timeStr (currentMs minutes seconds : Z) : string :=
  let timeStr := "" in
  let timeStr := if currentMs <? 0 then timeStr ++ "-" else timeStr in
  let timeStr := if minutes <? 10 then timeStr ++ "0" else timeStr in
  let timeStr := timeStr ++ (WString.of_int minutes ++ ":") in
  let timeStr := if seconds <? 10 then timeStr ++ "0" else timeStr in
  timeStr ++ WString.of_int seconds.

Definition line1 (lcdStatus timeStr : string) : string :=
  let line1 := (lcdStatus ++ " ") ++ timeStr in
  let line1 := pad16 line1 in
  if 16 <? WString.len line1 then WString.substring line1 0 16 else line1.

(** The title after the checks on [eventNow] and on the timer object. *)
Definition eventNowTitle (corePayload : JSONVar) (newTitle : string) : string :=
  if hasOwnProperty corePayload "eventNow" then
    let eventNow := get corePayload "eventNow" in
    if hasOwnProperty eventNow "title" then field eventNow "title" else newTitle
  else newTitle.

Definition timerTitle (timer : JSONVar) (newTitle : string) : string :=
  if hasOwnProperty timer "label" then field timer "label"
  else if hasOwnProperty timer "title" then field timer "title"
  else newTitle.

(** The [WStype_TEXT] case, from the parsed document on. *)
Definition onText (doc : JSONVar) : Dev unit :=
  if (typeof doc =? "undefined")%string then ret tt
  else
    when (hasOwnProperty doc "payload")
      (let corePayload := get doc "payload" in
       newTitle <- read currentEventTitle ;;
       let newTitle := eventNowTitle corePayload newTitle in
       when (hasOwnProperty corePayload "timer")
         (let timer := get corePayload "timer" in
          let newTitle := timerTitle timer newTitle in
          current <- read currentEventTitle ;;
          when (negb (newTitle =? current)%string)
            (set_currentEventTitle newTitle ;;
             set_scrollIndex 0) ;;
          let currentMs := currentMs timer in
          let minutes := minutes currentMs in
          let seconds := seconds currentMs in
          let cStr := cStr timer currentMs in
          let colorByte := colorByte cStr in
          let lcdStatus := lcdStatus timer cStr in
          let minByte := formatByte minutes in
          let secByte := formatByte seconds in
          emit (Serial1_write minByte) ;;
          emit (Serial1_write secByte) ;;
          emit (Serial1_write colorByte) ;;
          let timeStr := timeStr currentMs minutes seconds in
          let line1 := line1 lcdStatus timeStr in
          emit (lcd_setCursor 0 1) ;;
          emit (lcd_print line1))).

Section Handler.

(** [JSON.parse], from the Arduino_JSON library. *)
Variable JSON_parse : string -> JSONVar.

(** [webSocketEvent(type, payload, length)]. *)
Definition webSocketEvent (type : WStype_t) (payload : string) : Dev unit :=
  match type with
  | WStype_DISCONNECTED =>
      emit (Serial_println "[WSc] Disconnected! Attempting to reconnect...") ;;
      emit lcd_clear ;;
      emit (lcd_setCursor 0 0) ;;
      emit (lcd_print "Disconnected!")
  | WStype_CONNECTED =>
      emit (Serial_println "[WSc] >>> CONNECTED TO ONTIME! <<<") ;;
      host <- read ontime_host ;;
      port <- read ontime_port ;;
      emit (Serial_printf "[WSc] Connected to: wss://%s:%d/ws\n" host port) ;;
      emit lcd_clear ;;
      emit (lcd_setCursor 0 0) ;;
      emit (lcd_print "Connected!") ;;
      emit (lcd_setCursor 0 1) ;;
      emit (lcd_print "Waiting data...")
  | WStype_TEXT =>
      let doc := JSON_parse payload in
      onText doc
  | WStype_ERROR =>
      emit (Serial_println "[WSc] WebSocket Error Occurred!") ;;
      emit (lcd_setCursor 0 1) ;;
      emit (lcd_print "WS Error!")
  | _ => ret tt
  end.

(** [webSocket.loop()]: the socket hands the events it has to the
    handler, in order. *)
Fixpoint webSocket_loop (events : list (WStype_t * string)) : Dev unit :=
  match events with
  | [] => ret tt
  | (type, payload) :: rest =>
      webSocketEvent type payload ;; webSocket_loop rest
  end.

(** [loop]: service the socket, then run the scroller. *)
Definition loop (events : list (WStype_t * string)) (now now' : Z) : Dev unit :=
  webSocket_loop events ;;
  updateLcdTitle now now'.

End Handler.

(** ** The specification's view of the engine *)

(** What a run wrote to the numeric display, and what it printed on the
    character display. *)
Fixpoint serialFrame (out : list Output) : list Z :=
  match out with
  | [] => []
  | Serial1_write b :: rest => b :: serialFrame rest
  | _ :: rest => serialFrame rest
  end.

Fixpoint lcdWrites (out : list Output) : list Output :=
  match out with
  | [] => []
  | Serial_println _ :: rest => lcdWrites rest
  | Serial_printf _ _ _ :: rest => lcdWrites rest
  | Serial1_write _ :: rest => lcdWrites rest
  | o :: rest => o :: lcdWrites rest
  end.

(** The timer object of a message, when the message parses and has one. *)
Definition timerOf (doc : JSONVar) : option JSONVar :=
  if (typeof doc =? "undefined")%string then None
  else if hasOwnProperty doc "payload" then
    if hasOwnProperty (get doc "payload") "timer"
    then Some (get (get doc "payload") "timer")
    else None
  else None.

(** The field extractor's optional tags. *)
Definition colorTag (timer : JSONVar) : option string :=
  if hasOwnProperty timer "color" then Some (field timer "color")
  else if hasOwnProperty timer "colour" then Some (field timer "colour")
  else None.

Definition phaseTag (timer : JSONVar) : option string :=
  if hasOwnProperty timer "phase" then Some (field timer "phase") else None.

Definition playbackTag (timer : JSONVar) : option string :=
  if hasOwnProperty timer "playback" then Some (field timer "playback") else None.

(** The time formatter in the specification's words. *)
Definition spec_totalSeconds (elapsedMs : Z) : Z :=
  let absMs := Z.abs elapsedMs in
  if (0 <? elapsedMs) && negb (absMs mod 1000 =? 0)
  then absMs / 1000 + 1
  else absMs / 1000.

Definition spec_minutes (elapsedMs : Z) : Z :=
  Z.min (spec_totalSeconds elapsedMs / 60) 99.

Definition spec_seconds (elapsedMs : Z) : Z :=
  spec_totalSeconds elapsedMs mod 60.

(** The status resolver in the specification's words. *)
Inductive ColorClass : Type := green | amber | red.

Definition byteOf (c : ColorClass) : Z :=
  match c with
  | green => 1
  | amber => 3
  | red => 2
  end.

Definition labelOf (c : ColorClass) : string :=
  match c with
  | green => "Running"
  | amber => "Warn"
  | red => "Over"
  end.

Definition is_red (c : ColorClass) : bool :=
  match c with red => true | _ => false end.

Definition is_amber (c : ColorClass) : bool :=
  match c with amber => true | _ => false end.

Definition spec_color (colorTag phaseTag : option string) (isNegative : bool) : ColorClass :=
  match colorTag with
  | Some c =>
      if (c =? "red")%string then red
      else if (c =? "amber")%string then amber
      else green
  | None =>
      if isNegative then red
      else
        match phaseTag with
        | Some p =>
            if (p =? "overtime")%string then red
            else if (p =? "warn")%string || (p =? "warning")%string then amber
            else green
        | None => green
        end
  end.

Definition spec_resolve (colorTag phaseTag : option string) (isNegative : bool)
    (playbackTag : option string) : ColorClass * string :=
  let c := spec_color colorTag phaseTag isNegative in
  match playbackTag with
  | Some p =>
      if (p =? "play")%string || (p =? "start")%string
      then (c, labelOf c)
      else (c, "Stopped")
  | None => (c, labelOf c)
  end.

(** The status renderer in the specification's words. *)
Definition digit (d : Z) : ascii := ascii_of_nat (48 + Z.to_nat d).

Definition two_digits (v : Z) : string :=
  String (digit (v / 10)) (String (digit (v mod 10)) "").

Fixpoint spaces (n : nat) : string :=
  match n with
  | O => ""
  | S n' => String " " (spaces n')
  end.

Definition fit16 (s : string) : string :=
  if (String.length s <=? 16)%nat
  then s ++ spaces (16 - String.length s)
  else String.substring 0 16 s.

Definition spec_statusRow (statusLabel : string) (minutes seconds : Z) (isNegative : bool) : string :=
  fit16 (statusLabel ++ " " ++ (if isNegative then "-" else "")
           ++ two_digits minutes ++ ":" ++ two_digits seconds).

(** The title scroller in the specification's words. *)
Definition scroll_inv (st : Engine) : Prop :=
  0 <= scrollIndex st <= WString.len (currentEventTitle st) + 3.

Definition virtualBuffer (title : string) : string := title ++ "   " ++ title.

Definition spec_window (title : string) (cursorIndex : Z) : string :=
  String.substring (Z.to_nat cursorIndex) 16 (virtualBuffer title).

Definition spec_advance (title : string) (cursorIndex : Z) : Z :=
  if WString.len title + 3 <? cursorIndex + 1 then 0 else cursorIndex + 1.

(** The scroll buffer is a [String] whose length an [int] can hold. *)
Definition holds_buffer (title : string) : Prop :=
  WString.len (virtualBuffer title) <= CInt.INT_MAX.

(** A scroll tick is due. *)
Definition due (st : Engine) (now : Z) : Prop :=
  scrollInterval <= CInt.to_unsigned (now - lastScrollTime st).

(** The states the sketch can be in: it starts with the title "Ontime" and
    the cursor at 0, whatever host and port were configured, and then takes
    socket events and scroll ticks in any order. A tick comes with a title
    whose scroll buffer the device can hold. *)
Inductive reachable (JSON_parse : string -> JSONVar) : Engine -> Prop :=
| reach_setup (host : string) (port : Z) :
    reachable JSON_parse
      {| ontime_host := host; ontime_port := port;
         currentEventTitle := "Ontime"; lastScrollTime := 0; scrollIndex := 0 |}
| reach_event (st : Engine) (type : WStype_t) (payload : string) :
    reachable JSON_parse st ->
    reachable JSON_parse (final (webSocketEvent JSON_parse type payload st))
| reach_tick (st : Engine) (now now' : Z) :
    reachable JSON_parse st ->
    holds_buffer (currentEventTitle st) ->
    reachable JSON_parse (final (updateLcdTitle now now' st)).

(** The state after the handler has settled on [newTitle]. *)
Definition retitle (newTitle : string) (st : Engine) : Engine :=
  if (newTitle =? currentEventTitle st)%string then st
  else
    {| ontime_host := ontime_host st; ontime_port := ontime_port st;
       currentEventTitle := newTitle;
       lastScrollTime := lastScrollTime st; scrollIndex := 0 |}.

(** The title a message with a timer object resolves to. *)
Definition resolvedTitle (doc : JSONVar) (displayed : string) : string :=
  let corePayload := get doc "payload" in
  timerTitle (get corePayload "timer") (eventNowTitle corePayload displayed).

(** The outputs of the handler for a timer object: the 3-byte frame, then
    row 1 of the LCD. *)
Definition timerOutputs (timer : JSONVar) : list Output :=
  let ms := currentMs timer in
  [ Serial1_write (formatByte (minutes ms));
    Serial1_write (formatByte (seconds ms));
    Serial1_write (colorByte (cStr timer ms));
    lcd_setCursor 0 1;
    lcd_print (line1 (lcdStatus timer (cStr timer ms))
                     (timeStr ms (minutes ms) (seconds ms))) ].

(** A timer object with the members of one name taken out. *)
Fixpoint remove_members (key : string) (members : list (string * JSONVar))
    : list (string * JSONVar) :=
  match members with
  | [] => []
  | (k, v) :: rest =>
      if String.eqb k key then remove_members key rest
      else (k, v) :: remove_members key rest
  end.

Definition without (key : string) (v : JSONVar) : JSONVar :=
  match v with
  | object members => object (remove_members key members)
  | _ => v
  end.

(** ** Sample messages *)

(** A parser for trying the handler on a given tree. *)
Definition parsed_as (doc : JSONVar) : string -> JSONVar := fun _ => doc.

(** A message with an [eventNow] title and no timer object. *)
Definition title_only (title : string) : JSONVar :=
  object [("payload", object [("eventNow", object [("title", str title)])])].

(** A timer object: 65.2 s of overtime, stopped. *)
Definition sample_timer : JSONVar :=
  object [("current", number (-65200)); ("phase", str "overtime");
          ("playback", str "stop")].

(** A parser that knows three texts: two carry [sample_timer], the third
    the same timer object without its playback member. *)
Definition sample_parse (text : string) : JSONVar :=
  if (text =? "full")%string then
    object [("type", str "ontime");
            ("payload", object [("eventNow", object [("title", str "Keynote")]);
                                ("timer", sample_timer)])]
  else if (text =? "timer")%string then
    object [("payload", object [("timer", sample_timer)])]
  else if (text =? "running")%string then
    object [("payload",
             object [("timer", object [("current", number (-65200));
                                       ("phase", str "overtime")])])]
  else undefined.

(** A state other than the initial one: a long title, scrolled halfway. *)
Definition scrolled : Engine :=
  {| ontime_host := "example.com";
     ontime_port := 443;
     currentEventTitle := "This Is A Very Long Event Title";
     lastScrollTime := 4000;
     scrollIndex := 12 |}.

(** ** The configuration kept in flash *)




(** ** Reading the outputs *)

(** The characters printed on the LCD, in order. *)
Fixpoint lcdText (out : list Output) : string :=
  match out with
  | [] => ""
  | lcd_print s :: rest => s ++ lcdText rest
  | _ :: rest => lcdText rest
  end.

(** The time from one reading of [millis()] to a later one, the counter
    starting again from 0 after 4294967295. *)
Definition elapsed (last now : Z) : Z :=
  if last <=? now then now - last else now - last + 4294967296.

(** A byte that holds two decimal digits. *)
Definition two_bcd_digits (b : Z) : Prop :=
  0 <= b < 256 /\ Z.land b 15 <= 9 /\ Z.shiftr b 4 <= 9.

(** A timer object with a label, and one whose label is a number. *)
Definition labelled_timer : JSONVar :=
  object [("label", str "Panel"); ("title", str "Ignored");
          ("current", number 61500)].

Definition labelled_message : JSONVar :=
  object [("payload",
           object [("eventNow", object [("title", str "Keynote")]);
                   ("timer", labelled_timer)])].

Definition numbered_label_message : JSONVar :=
  object [("payload",
           object [("timer", object [("label", number 7);
                                     ("current", str "soon")])])].

(** ** Runs of the scroller *)

(** The scroller called once for each pair of clock readings, in order. *)
Fixpoint ticks (clock : list (Z * Z)) : Dev unit :=
  match clock with
  | [] => ret tt
  | (now, now') :: rest => updateLcdTitle now now' ;; ticks rest
  end.

(** Every call of the run comes at least 400 ms after the stamp of the call
    before it, [last] being the stamp the run starts with. *)
Fixpoint all_due (last : Z) (clock : list (Z * Z)) : Prop :=
  match clock with
  | [] => True
  | (now, now') :: rest =>
      scrollInterval <= CInt.to_unsigned (now - last) /\ all_due now' rest
  end.

(** * Properties *)

(** ** Checking a property on an initial segment of the integers *)

Lemma below_forallb (P : Z -> bool) (n : nat) :
  forallb P (map Z.of_nat (seq 0 n)) = true ->
  forall v, 0 <= v < Z.of_nat n -> P v = true.
Proof.
  intros Hall v Hv.
  rewrite forallb_forall in Hall.
  apply Hall.
  apply in_map_iff.
  exists (Z.to_nat v); split; [lia |].
  apply in_seq; lia.
Qed.

(** ** Machine arithmetic inside its range *)

Lemma wrap_in_range (z : Z) : CInt.in_range z -> CInt.wrap z = z.
Proof.
  unfold CInt.in_range, CInt.INT_MIN, CInt.INT_MAX, CInt.wrap; intros H.
  rewrite Z.mod_small by lia. lia.
Qed.

Lemma to_unsigned_nonneg (z : Z) :
  0 <= z <= CInt.INT_MAX -> CInt.to_unsigned z = z.
Proof.
  unfold CInt.INT_MAX, CInt.to_unsigned; intros H.
  apply Z.mod_small; lia.
Qed.

Lemma abs_in_range (x : Z) :
  CInt.INT_MIN < x <= CInt.INT_MAX -> CInt.abs x = Z.abs x.
Proof.
  unfold CInt.abs, CInt.INT_MIN, CInt.INT_MAX; intros H.
  destruct (Z.ltb_spec x 0).
  - rewrite wrap_in_range; [lia |].
    unfold CInt.in_range, CInt.INT_MIN, CInt.INT_MAX; lia.
  - lia.
Qed.

(** ** The digit-pair encoder *)

(** The encoder and its decoding, checked on each of the hundred values. *)
Lemma formatByte_digits (v : Z) :
  0 <= v <= 99 ->
  formatByte v = Z.lor (Z.shiftl (v mod 10) 4) (v / 10)
  /\ decodeByte (formatByte v) = v.
Proof.
  intros Hv.
  pose (P := fun v => (formatByte v =? Z.lor (Z.shiftl (v mod 10) 4) (v / 10))
                      && (decodeByte (formatByte v) =? v)).
  assert (HP : P v = true).
  { apply (below_forallb P 100); [vm_compute; reflexivity | lia]. }
  unfold P in HP.
  apply andb_true_iff in HP as [H1 H2].
  split; apply Z.eqb_eq; assumption.
Qed.

(** C4. For every v in [0,99], [formatByte v] is ((v mod 10) << 4) | (v / 10),
    and decoding with the nibbles swapped back (tens in the low nibble, ones
    in the high nibble) gives v again. *)
Theorem formatByte_roundtrip (v : Z) :
  0 <= v <= 99 ->
  formatByte v = Z.lor (Z.shiftl (v mod 10) 4) (v / 10)
  /\ decodeByte (formatByte v) = v.
Proof. exact (formatByte_digits v). Qed.

Lemma formatByte_roundtrip_witness :
  0 <= 47 <= 99
  /\ formatByte 47 = Z.lor (Z.shiftl (47 mod 10) 4) (47 / 10)
  /\ decodeByte (formatByte 47) = 47.
Proof.
  split; [lia |].
  apply (formatByte_roundtrip 47); lia.
Defined.

(** The example of the sketch: 12 is sent as 0x21. *)
Example formatByte_12 : formatByte 12 = 33.
Proof. reflexivity. Qed.

(** The encoder is injective on [0,99]: no two values share a byte. *)
Lemma formatByte_injective (v w : Z) :
  0 <= v <= 99 -> 0 <= w <= 99 -> formatByte v = formatByte w -> v = w.
Proof.
  intros Hv Hw E.
  destruct (formatByte_digits v Hv) as [_ Dv].
  destruct (formatByte_digits w Hw) as [_ Dw].
  congruence.
Qed.

(** ** The time formatter *)

Lemma totalSeconds_in_range (ms : Z) :
  CInt.INT_MIN < ms <= CInt.INT_MAX ->
  totalSeconds ms = spec_totalSeconds ms
  /\ 0 <= totalSeconds ms <= 2147484.
Proof.
  intros H.
  unfold totalSeconds, spec_totalSeconds, CInt.div, CInt.rem.
  rewrite (abs_in_range ms H).
  unfold CInt.INT_MIN, CInt.INT_MAX in H.
  assert (Ha : 0 <= Z.abs ms <= 2147483647) by lia.
  rewrite Z.rem_mod_nonneg by lia.
  rewrite Z.quot_div_nonneg by lia.
  assert (Hq : 0 <= Z.abs ms / 1000 < 2147484).
  { split; [apply Z.div_pos; lia |].
    apply Z.div_lt_upper_bound; lia. }
  destruct ((0 <? ms) && negb (Z.abs ms mod 1000 =? 0)).
  - rewrite wrap_in_range
      by (unfold CInt.in_range, CInt.INT_MIN, CInt.INT_MAX; lia).
    split; [reflexivity | lia].
  - split; [reflexivity | lia].
Qed.

(** The time formatter agrees with the specification on every [long] but
    the most negative one. *)
Lemma time_formatter_in_range (elapsedMs : Z) :
  CInt.INT_MIN < elapsedMs <= CInt.INT_MAX ->
  totalSeconds elapsedMs = spec_totalSeconds elapsedMs
  /\ minutes elapsedMs = spec_minutes elapsedMs
  /\ seconds elapsedMs = spec_seconds elapsedMs
  /\ 0 <= minutes elapsedMs <= 99
  /\ 0 <= seconds elapsedMs <= 59.
Proof.
  intros H.
  destruct (totalSeconds_in_range elapsedMs H) as [E B].
  unfold minutes, seconds, spec_minutes, spec_seconds, CInt.div, CInt.rem.
  rewrite <- E.
  rewrite Z.rem_mod_nonneg by lia.
  rewrite Z.quot_div_nonneg by lia.
  assert (Hd : 0 <= totalSeconds elapsedMs / 60) by (apply Z.div_pos; lia).
  assert (Hm : 0 <= totalSeconds elapsedMs mod 60 < 60)
    by (apply Z.mod_pos_bound; lia).
  destruct (Z.ltb_spec 99 (totalSeconds elapsedMs / 60)); cbv iota;
    repeat split; lia.
Qed.

(** C2, at the one input where the code leaves the specification: the most
    negative [long]. [abs] overflows there, so the total of seconds and the
    minutes come out negative instead of 2147483 seconds and 99 minutes (the
    cap at 99 does not apply), and the bytes sent for them are no digit
    pairs. *)
Theorem time_formatter_most_negative :
  let doc :=
    object [("payload",
             object [("timer", object [("current", number (-2147483648))])])] in
  currentMs (get (get doc "payload") "timer") = -2147483648
  /\ totalSeconds (-2147483648) = -2147483
  /\ spec_totalSeconds (-2147483648) = 2147483
  /\ minutes (-2147483648) = -35791
  /\ spec_minutes (-2147483648) = 99
  /\ seconds (-2147483648) = -23
  /\ spec_seconds (-2147483648) = 23
  /\ emitted (onText doc boot)
     = [Serial1_write 245; Serial1_write 254; Serial1_write 2;
        lcd_setCursor 0 1; lcd_print "Over -0-35791:0-"].
Proof. vm_compute. repeat split. Qed.

(** One millisecond later the formatter is back on the specification. *)
Example time_formatter_next_to_most_negative :
  totalSeconds (-2147483647) = 2147483
  /\ minutes (-2147483647) = 99
  /\ seconds (-2147483647) = 23.
Proof. vm_compute. repeat split. Qed.

(** The scenarios of the specification: a tenth of a second rounds up when
    counting down and down when over time. *)
Example rounding_scenarios :
  totalSeconds 100 = 1 /\ totalSeconds (-100) = 0
  /\ totalSeconds 1000 = 1 /\ totalSeconds 0 = 0
  /\ minutes 6000000 = 99 /\ seconds 6000000 = 0.
Proof. vm_compute. repeat split. Qed.

(** ** Strings *)

Lemma append_nil_r (s : string) : s ++ "" = s.
Proof. induction s as [| c s IH]; simpl; [reflexivity | now rewrite IH]. Qed.

Lemma append_assoc (a b c : string) : (a ++ b) ++ c = a ++ (b ++ c).
Proof. induction a as [| x a IH]; simpl; [reflexivity | now rewrite IH]. Qed.

Lemma length_append (a b : string) :
  String.length (a ++ b) = (String.length a + String.length b)%nat.
Proof. induction a as [| x a IH]; simpl; [reflexivity | now rewrite IH]. Qed.

Lemma length_spaces (n : nat) : String.length (spaces n) = n.
Proof. induction n as [| n IH]; simpl; [reflexivity | now rewrite IH]. Qed.

Lemma spaces_succ (n : nat) : " " ++ spaces n = spaces (S n).
Proof. reflexivity. Qed.

Lemma length_substring (s : string) :
  forall n m, (n + m <= String.length s)%nat ->
  String.length (String.substring n m s) = m.
Proof.
  induction s as [| c s IH]; intros n m H; simpl in H.
  - assert (n = 0%nat) by lia; assert (m = 0%nat) by lia; subst; reflexivity.
  - destruct n as [| n]; simpl.
    + destruct m as [| m]; simpl; [reflexivity |].
      rewrite IH by lia; reflexivity.
    + apply IH; lia.
Qed.

(** The Arduino [substring] on a window that lies inside the string. *)
Lemma substring_inside (s : string) (from to : Z) :
  0 <= from <= to -> to <= WString.len s -> from < WString.len s ->
  WString.substring s from to
  = String.substring (Z.to_nat from) (Z.to_nat (to - from)) s.
Proof.
  intros Hft Hto Hfrom.
  unfold WString.substring.
  destruct (Z.ltb_spec to from); [lia |].
  destruct (Z.leb_spec (WString.len s) from); [lia |].
  destruct (Z.ltb_spec (WString.len s) to); [lia |].
  reflexivity.
Qed.

(** The padding loop: with enough rounds it appends the missing spaces and
    stops with its exit test reached. *)
Lemma pad_loop_spaces (fuel : nat) :
  forall line, (16 - String.length line <= fuel)%nat ->
  pad_loop fuel line = line ++ spaces (16 - String.length line).
Proof.
  induction fuel as [| fuel IH]; intros line Hfuel; cbn [pad_loop].
  - replace (16 - String.length line)%nat with 0%nat by lia.
    cbn [spaces]; now rewrite append_nil_r.
  - unfold WString.len.
    destruct (Z.ltb_spec (Z.of_nat (String.length line)) 16) as [Hlt | Hge].
    + rewrite IH by (rewrite length_append; cbn [String.length]; lia).
      rewrite length_append; cbn [String.length].
      rewrite append_assoc, spaces_succ.
      f_equal; f_equal; lia.
    + replace (16 - String.length line)%nat with 0%nat by lia.
      cbn [spaces]; now rewrite append_nil_r.
Qed.

Lemma pad16_spaces (line : string) :
  pad16 line = line ++ spaces (16 - String.length line).
Proof. apply pad_loop_spaces; lia. Qed.

(** More rounds than sixteen change nothing: the loop has ended. *)
Lemma pad_loop_enough (fuel : nat) (line : string) :
  (16 <= fuel)%nat ->
  pad_loop fuel line = pad16 line /\ 16 <= WString.len (pad16 line).
Proof.
  intros Hfuel.
  rewrite pad16_spaces, pad_loop_spaces by lia.
  split; [reflexivity |].
  unfold WString.len; rewrite length_append, length_spaces; lia.
Qed.

(** The two ways of writing a number below 100 with two digits. *)
Lemma two_digits_of_int (v : Z) :
  0 <= v <= 99 ->
  (if v <? 10 then "0" else "") ++ WString.of_int v = two_digits v.
Proof.
  intros Hv.
  pose (P := fun v =>
    String.eqb ((if v <? 10 then "0" else "") ++ WString.of_int v) (two_digits v)).
  assert (HP : P v = true).
  { apply (below_forallb P 100); [vm_compute; reflexivity | lia]. }
  apply String.eqb_eq; exact HP.
Qed.

(** ** The status renderer *)

Lemma timeStr_spec (currentMs minutes seconds : Z) :
  0 <= minutes <= 99 -> 0 <= seconds <= 59 ->
  timeStr currentMs minutes seconds
  = (if currentMs <? 0 then "-" else "")
      ++ two_digits minutes ++ ":" ++ two_digits seconds.
Proof.
  intros Hm Hs.
  rewrite <- (two_digits_of_int minutes) by lia.
  rewrite <- (two_digits_of_int seconds) by lia.
  unfold timeStr.
  destruct (currentMs <? 0), (minutes <? 10), (seconds <? 10); simpl;
    repeat rewrite append_assoc; simpl; reflexivity.
Qed.

Lemma length_fit16 (s : string) : String.length (fit16 s) = 16%nat.
Proof.
  unfold fit16.
  destruct (Nat.leb_spec (String.length s) 16).
  - rewrite length_append, length_spaces; lia.
  - apply length_substring; lia.
Qed.

Lemma line1_fit16 (lcdStatus timeStr : string) :
  line1 lcdStatus timeStr = fit16 (lcdStatus ++ " " ++ timeStr).
Proof.
  unfold line1, fit16.
  rewrite append_assoc.
  set (s := lcdStatus ++ " " ++ timeStr).
  rewrite pad16_spaces.
  destruct (Nat.leb_spec (String.length s) 16) as [Hle | Hgt].
  - assert (Hlen : WString.len (s ++ spaces (16 - String.length s)) = 16).
    { unfold WString.len; rewrite length_append, length_spaces; lia. }
    rewrite Hlen; reflexivity.
  - replace (16 - String.length s)%nat with 0%nat by lia.
    cbn [spaces]; rewrite append_nil_r.
    destruct (Z.ltb_spec 16 (WString.len s)) as [_ | Hge];
      [| unfold WString.len in Hge; lia].
    rewrite substring_inside by (unfold WString.len; lia).
    reflexivity.
Qed.

(** C9. For every status label and every resolved time (minutes in 0..99,
    seconds in 0..59, the sign carried by the milliseconds), the row built by
    the handler is the label, a space, an optional minus sign, the minutes on
    two digits, a colon and the seconds on two digits, padded with spaces or
    cut on the right, and it is always exactly 16 characters long. *)
Theorem status_row_rendering (statusLabel : string) (currentMs minutes seconds : Z) :
  0 <= minutes <= 99 ->
  0 <= seconds <= 59 ->
  line1 statusLabel (timeStr currentMs minutes seconds)
  = spec_statusRow statusLabel minutes seconds (currentMs <? 0)
  /\ String.length (line1 statusLabel (timeStr currentMs minutes seconds)) = 16%nat.
Proof.
  intros Hm Hs.
  rewrite line1_fit16, timeStr_spec by assumption.
  split; [reflexivity | apply length_fit16].
Qed.

Lemma status_row_rendering_witness :
  0 <= 1 <= 99 /\ 0 <= 5 <= 59
  /\ line1 "Over" (timeStr (-65000) 1 5) = "Over -01:05     "
  /\ String.length (line1 "Over" (timeStr (-65000) 1 5)) = 16%nat.
Proof.
  split; [lia |]; split; [lia |].
  destruct (status_row_rendering "Over" (-65000) 1 5) as [E L]; [lia | lia |].
  split; [rewrite E; reflexivity | exact L].
Defined.

(** ** Running the handler *)

Lemma timerOf_Some (doc timer : JSONVar) :
  timerOf doc = Some timer ->
  (typeof doc =? "undefined")%string = false
  /\ hasOwnProperty doc "payload" = true
  /\ hasOwnProperty (get doc "payload") "timer" = true
  /\ get (get doc "payload") "timer" = timer.
Proof.
  unfold timerOf.
  destruct (typeof doc =? "undefined")%string; [discriminate |].
  destruct (hasOwnProperty doc "payload"); [| discriminate].
  destruct (hasOwnProperty (get doc "payload") "timer"); [| discriminate].
  intros E; injection E as E; auto.
Qed.

(** A message with no timer object (unparsable, without payload, or with a
    payload that has no timer) leaves the globals alone and sends nothing. *)
Lemma onText_without_timer (doc : JSONVar) (st : Engine) :
  timerOf doc = None -> onText doc st = mkOutcome tt st [].
Proof.
  unfold timerOf, onText.
  destruct (typeof doc =? "undefined")%string; [reflexivity |].
  destruct (hasOwnProperty doc "payload"); [| reflexivity].
  destruct (hasOwnProperty (get doc "payload") "timer"); [discriminate |].
  reflexivity.
Qed.

(** A message with a timer object settles the title and sends the frame and
    the status row of that timer object. *)
Lemma onText_with_timer (doc timer : JSONVar) (st : Engine) :
  timerOf doc = Some timer ->
  onText doc st
  = mkOutcome tt (retitle (resolvedTitle doc (currentEventTitle st)) st)
      (timerOutputs timer).
Proof.
  intros H.
  destruct (timerOf_Some doc timer H) as (Hdef & Hpay & Htimer & Heq).
  unfold onText, retitle, resolvedTitle, timerOutputs.
  rewrite Hdef, Hpay.
  unfold when, bind, read; cbn [value final emitted].
  rewrite Htimer, Heq.
  destruct (timerTitle timer (eventNowTitle (get doc "payload") (currentEventTitle st))
            =? currentEventTitle st)%string; reflexivity.
Qed.

(** ** Malformed messages *)

(** C6. A text message that does not parse, or that parses but has no
    "payload" member, makes the handler do nothing: every global (title,
    scroll cursor and the rest) keeps its value and nothing is sent to the
    serial ports or to the display. *)
Theorem malformed_message_ignored
    (JSON_parse : string -> JSONVar) (payload : string) (st : Engine) :
  typeof (JSON_parse payload) = "undefined"
  \/ hasOwnProperty (JSON_parse payload) "payload" = false ->
  webSocketEvent JSON_parse WStype_TEXT payload st = mkOutcome tt st [].
Proof.
  intros H.
  cbn [webSocketEvent].
  apply onText_without_timer.
  unfold timerOf.
  destruct H as [H | H].
  - rewrite H; reflexivity.
  - rewrite H; destruct (typeof (JSON_parse payload) =? "undefined")%string;
      reflexivity.
Qed.

Lemma malformed_message_ignored_witness :
  (typeof (parsed_as (object [("type", str "ontime")]) "{}") = "undefined"
   \/ hasOwnProperty (parsed_as (object [("type", str "ontime")]) "{}") "payload"
      = false)
  /\ webSocketEvent (parsed_as (object [("type", str "ontime")])) WStype_TEXT "{}" boot
     = mkOutcome tt boot [].
Proof.
  split; [right; reflexivity |].
  apply (malformed_message_ignored (parsed_as (object [("type", str "ontime")]))
           "{}" boot).
  right; reflexivity.
Defined.

(** ** Title-only messages *)

(** C3, at a message that has [payload.eventNow.title] and no timer object:
    the handler reads the new title and then drops it. Nothing is sent, which
    is what the claim says of time, colour and status, but the displayed
    title stays what it was instead of becoming the title of the message. *)
Theorem title_only_message_dropped :
  let doc := title_only "Keynote" in
  hasOwnProperty (get doc "payload") "timer" = false
  /\ eventNowTitle (get doc "payload") (currentEventTitle boot) = "Keynote"
  /\ emitted (onText doc boot) = []
  /\ currentEventTitle (final (onText doc boot)) = "Ontime"
  /\ currentEventTitle (final (onText doc boot)) <> "Keynote".
Proof.
  cbv zeta.
  rewrite onText_without_timer by reflexivity.
  repeat split; discriminate.
Qed.

(** ** Noninterference of the engine state *)

(** C10. The frame and the status row sent for a message with a timer object
    depend on that timer object alone: whatever the two engine states (title
    on display, scroll cursor, earlier messages) and whatever else the two
    messages hold, the handler sends the same outputs, namely three bytes to
    the numeric display and one 16-character row to line 1 of the LCD. *)
Theorem timer_outputs_state_independent
    (JSON_parse : string -> JSONVar) (payload1 payload2 : string)
    (timer : JSONVar) (st1 st2 : Engine) :
  timerOf (JSON_parse payload1) = Some timer ->
  timerOf (JSON_parse payload2) = Some timer ->
  let out1 := emitted (webSocketEvent JSON_parse WStype_TEXT payload1 st1) in
  let out2 := emitted (webSocketEvent JSON_parse WStype_TEXT payload2 st2) in
  out1 = out2
  /\ List.length (serialFrame out1) = 3%nat
  /\ exists row, lcdWrites out1 = [lcd_setCursor 0 1; lcd_print row]
                 /\ String.length row = 16%nat.
Proof.
  intros H1 H2; cbn [webSocketEvent]; cbv zeta.
  rewrite (onText_with_timer _ _ st1 H1), (onText_with_timer _ _ st2 H2).
  cbn [emitted].
  split; [reflexivity |].
  split; [reflexivity |].
  eexists; split; [reflexivity |].
  rewrite line1_fit16; apply length_fit16.
Qed.

Lemma timer_outputs_state_independent_witness :
  timerOf (sample_parse "full") = Some sample_timer
  /\ timerOf (sample_parse "timer") = Some sample_timer
  /\ emitted (webSocketEvent sample_parse WStype_TEXT "full" boot)
     = emitted (webSocketEvent sample_parse WStype_TEXT "timer" scrolled)
  /\ serialFrame (emitted (webSocketEvent sample_parse WStype_TEXT "full" boot))
     = [16; 80; 2].
Proof.
  split; [reflexivity |]; split; [reflexivity |].
  destruct (timer_outputs_state_independent sample_parse "full" "timer"
              sample_timer boot scrolled eq_refl eq_refl) as (E & _ & _).
  split; [exact E | reflexivity].
Defined.

(** ** The status resolver *)

(** The colour name the handler settles on names the colour class of the
    specification. *)
Lemma cStr_class (timer : JSONVar) (ms : Z) :
  let c := spec_color (colorTag timer) (phaseTag timer) (ms <? 0) in
  (cStr timer ms =? "red")%string = is_red c
  /\ (cStr timer ms =? "amber")%string = is_amber c.
Proof.
  unfold cStr, colorTag, phaseTag, spec_color.
  destruct (hasOwnProperty timer "color").
  { destruct (String.eqb_spec (field timer "color") "red") as [E | N].
    - rewrite E; split; reflexivity.
    - destruct (field timer "color" =? "amber")%string; split; reflexivity. }
  destruct (hasOwnProperty timer "colour").
  { destruct (String.eqb_spec (field timer "colour") "red") as [E | N].
    - rewrite E; split; reflexivity.
    - destruct (field timer "colour" =? "amber")%string; split; reflexivity. }
  destruct (ms <? 0); [split; reflexivity |].
  destruct (hasOwnProperty timer "phase"); [| split; reflexivity].
  destruct (String.eqb_spec (field timer "phase") "overtime") as [E | _];
    [rewrite E; split; reflexivity |].
  destruct (String.eqb_spec (field timer "phase") "warn") as [E | _];
    [rewrite E; split; reflexivity |].
  destruct (String.eqb_spec (field timer "phase") "warning") as [E | _];
    split; reflexivity.
Qed.

Lemma colorByte_class (timer : JSONVar) (ms : Z) :
  colorByte (cStr timer ms)
  = byteOf (spec_color (colorTag timer) (phaseTag timer) (ms <? 0)).
Proof.
  destruct (cStr_class timer ms) as [R A].
  unfold colorByte; rewrite R, A.
  destruct (spec_color _ _ _); reflexivity.
Qed.

Lemma lcdStatus_resolve (timer : JSONVar) (ms : Z) :
  lcdStatus timer (cStr timer ms)
  = snd (spec_resolve (colorTag timer) (phaseTag timer) (ms <? 0)
                      (playbackTag timer)).
Proof.
  destruct (cStr_class timer ms) as [R A].
  unfold lcdStatus, spec_resolve, playbackTag; rewrite R, A.
  destruct (hasOwnProperty timer "playback").
  - destruct (field timer "playback" =? "play")%string,
             (field timer "playback" =? "start")%string,
             (spec_color _ _ _); reflexivity.
  - destruct (spec_color _ _ _); reflexivity.
Qed.

(** C1. The colour byte and the status label the handler computes are a
    function of the four tags alone (colour tag, phase tag, sign of the time,
    playback tag), and that function is the resolver of the specification:
    an explicit colour tag decides ("red" gives red/Over and byte 2, "amber"
    gives amber/Warn and byte 3, anything else green/Running and byte 1);
    only without a colour tag a negative time gives red, then the phase
    "overtime" gives red and "warn" or "warning" amber, and green is the
    default; the playback override of the label comes last. *)
Theorem status_resolution (timer : JSONVar) (ms : Z) :
  let r := spec_resolve (colorTag timer) (phaseTag timer) (ms <? 0)
                        (playbackTag timer) in
  colorByte (cStr timer ms) = byteOf (fst r)
  /\ lcdStatus timer (cStr timer ms) = snd r
  /\ (fst r = red \/ fst r = amber \/ fst r = green)
  /\ (playbackTag timer = None -> snd r = labelOf (fst r)).
Proof.
  cbv zeta.
  split; [| split; [apply lcdStatus_resolve | split]].
  - rewrite colorByte_class.
    unfold spec_resolve.
    destruct (playbackTag timer) as [p |]; [| reflexivity].
    destruct ((p =? "play")%string || (p =? "start")%string); reflexivity.
  - destruct (fst (spec_resolve _ _ _ _)); auto.
  - intros E; unfold spec_resolve; rewrite E; reflexivity.
Qed.

(** The scenarios of the specification. *)
Example resolve_warn_playing :
  spec_resolve None (Some "warn") false (Some "play") = (amber, "Warn").
Proof. reflexivity. Qed.

Example resolve_red_stopped :
  spec_resolve (Some "red") None false (Some "stop") = (red, "Stopped").
Proof. reflexivity. Qed.

Example resolve_unknown_colour :
  spec_resolve (Some "blue") (Some "overtime") true None = (green, "Running").
Proof. reflexivity. Qed.

(** ** The playback override *)

Lemma lookup_remove_other (key k : string) (members : list (string * JSONVar)) :
  k <> key -> lookup k (remove_members key members) = lookup k members.
Proof.
  intros Hk.
  induction members as [| [k' v] rest IH]; cbn [remove_members lookup];
    [reflexivity |].
  destruct (String.eqb_spec k' key) as [E | N].
  - subst k'. rewrite IH.
    destruct (String.eqb_spec key k); [congruence | reflexivity].
  - cbn [lookup]; rewrite IH; reflexivity.
Qed.

Lemma lookup_remove_same (key : string) (members : list (string * JSONVar)) :
  lookup key (remove_members key members) = None.
Proof.
  induction members as [| [k' v] rest IH]; cbn [remove_members lookup];
    [reflexivity |].
  destruct (String.eqb_spec k' key) as [E | N]; [exact IH |].
  cbn [lookup].
  destruct (String.eqb_spec k' key); [contradiction | exact IH].
Qed.

Lemma hasOwnProperty_without_other (key k : string) (v : JSONVar) :
  k <> key -> hasOwnProperty (without key v) k = hasOwnProperty v k.
Proof.
  intros Hk; destruct v; try reflexivity.
  cbn [without hasOwnProperty]; now rewrite lookup_remove_other.
Qed.

Lemma get_without_other (key k : string) (v : JSONVar) :
  k <> key -> get (without key v) k = get v k.
Proof.
  intros Hk; destruct v; try reflexivity.
  cbn [without get]; now rewrite lookup_remove_other.
Qed.

Lemma hasOwnProperty_without_same (key : string) (v : JSONVar) :
  hasOwnProperty (without key v) key = false.
Proof.
  destruct v; try reflexivity.
  cbn [without hasOwnProperty]; now rewrite lookup_remove_same.
Qed.

(** Taking the playback member out leaves the time, the colour name and
    the tags other than the playback tag as they were. *)
Lemma without_playback (timer : JSONVar) :
  currentMs (without "playback" timer) = currentMs timer
  /\ (forall ms, cStr (without "playback" timer) ms = cStr timer ms)
  /\ playbackTag (without "playback" timer) = None.
Proof.
  unfold currentMs, cStr, playbackTag, field.
  rewrite hasOwnProperty_without_same.
  repeat rewrite hasOwnProperty_without_other by discriminate.
  repeat rewrite get_without_other by discriminate.
  repeat split.
Qed.

(** The label before any override, from the colour class. *)
Lemma lcdStatus_not_overridden (timer : JSONVar) (ms : Z) :
  playbackTag timer = None ->
  lcdStatus timer (cStr timer ms)
  = labelOf (spec_color (colorTag timer) (phaseTag timer) (ms <? 0)).
Proof.
  intros E; rewrite lcdStatus_resolve.
  unfold spec_resolve; rewrite E; reflexivity.
Qed.

Lemma lcdStatus_stopped (timer : JSONVar) (ms : Z) (p : string) :
  playbackTag timer = Some p -> p <> "play" -> p <> "start" ->
  lcdStatus timer (cStr timer ms) = "Stopped".
Proof.
  intros E Hplay Hstart; rewrite lcdStatus_resolve.
  unfold spec_resolve; rewrite E.
  destruct (String.eqb_spec p "play"); [contradiction |].
  destruct (String.eqb_spec p "start"); [contradiction |].
  reflexivity.
Qed.

(** C5. Take a message with a timer object and the same message with the
    playback member taken out of the timer object. Both make the handler
    send the same 3-byte frame, whose colour byte is that of the resolved
    colour class; without the playback member the label in the status row
    is the label of the colour class; with a playback value that is neither
    "play" nor "start" the label is "Stopped". *)
Theorem playback_override
    (JSON_parse : string -> JSONVar) (payload payload' : string)
    (timer : JSONVar) (st st' : Engine) :
  timerOf (JSON_parse payload) = Some timer ->
  timerOf (JSON_parse payload') = Some (without "playback" timer) ->
  let out := emitted (webSocketEvent JSON_parse WStype_TEXT payload st) in
  let out' := emitted (webSocketEvent JSON_parse WStype_TEXT payload' st') in
  let ms := currentMs timer in
  let c := spec_color (colorTag timer) (phaseTag timer) (ms <? 0) in
  let time := timeStr ms (minutes ms) (seconds ms) in
  serialFrame out = serialFrame out'
  /\ serialFrame out = [formatByte (minutes ms); formatByte (seconds ms); byteOf c]
  /\ lcdWrites out' = [lcd_setCursor 0 1; lcd_print (line1 (labelOf c) time)]
  /\ (forall p, playbackTag timer = Some p -> p <> "play" -> p <> "start" ->
      lcdWrites out = [lcd_setCursor 0 1; lcd_print (line1 "Stopped" time)])
  /\ (playbackTag timer = None -> out = out').
Proof.
  intros H H'; cbn [webSocketEvent]; cbv zeta.
  rewrite (onText_with_timer _ _ st H), (onText_with_timer _ _ st' H').
  cbn [emitted].
  destruct (without_playback timer) as (Ems & EcStr & Eplay).
  unfold timerOutputs; rewrite Ems, EcStr.
  cbn [serialFrame lcdWrites].
  rewrite colorByte_class.
  split; [reflexivity |]; split; [reflexivity |]; split; [| split].
  - rewrite <- (EcStr (currentMs timer)) at 1.
    rewrite <- Ems at 1 2.
    rewrite (lcdStatus_not_overridden _ _ Eplay).
    unfold colorTag, phaseTag, field.
    repeat rewrite hasOwnProperty_without_other by discriminate.
    repeat rewrite get_without_other by discriminate.
    rewrite Ems; reflexivity.
  - intros p Ep Hplay Hstart.
    rewrite (lcdStatus_stopped timer _ p Ep Hplay Hstart); reflexivity.
  - intros Ep.
    rewrite (lcdStatus_not_overridden timer _ Ep).
    rewrite <- (EcStr (currentMs timer)) at 1.
    rewrite <- Ems at 1 2.
    rewrite (lcdStatus_not_overridden _ _ Eplay).
    unfold colorTag, phaseTag, field.
    repeat rewrite hasOwnProperty_without_other by discriminate.
    repeat rewrite get_without_other by discriminate.
    rewrite Ems; reflexivity.
Qed.

Lemma playback_override_witness :
  timerOf (sample_parse "timer") = Some sample_timer
  /\ timerOf (sample_parse "running") = Some (without "playback" sample_timer)
  /\ serialFrame (emitted (webSocketEvent sample_parse WStype_TEXT "timer" boot))
     = serialFrame (emitted (webSocketEvent sample_parse WStype_TEXT "running" scrolled))
  /\ lcdWrites (emitted (webSocketEvent sample_parse WStype_TEXT "running" scrolled))
     = [lcd_setCursor 0 1; lcd_print "Over -01:05     "]
  /\ lcdWrites (emitted (webSocketEvent sample_parse WStype_TEXT "timer" boot))
     = [lcd_setCursor 0 1; lcd_print "Stopped -01:05  "].
Proof.
  split; [reflexivity |]; split; [reflexivity |].
  destruct (playback_override sample_parse "timer" "running" sample_timer
              boot scrolled eq_refl eq_refl) as (F & _ & R & S & _).
  split; [exact F |]; split; [exact R |].
  apply (S "stop"); [reflexivity | discriminate | discriminate].
Defined.

(** ** The title scroller *)

Lemma len_virtualBuffer (title : string) :
  WString.len (virtualBuffer title) = 2 * WString.len title + 3.
Proof.
  unfold WString.len, virtualBuffer.
  rewrite !length_append; cbn [String.length]; lia.
Qed.

Lemma tick_not_due (now now' : Z) (st : Engine) :
  ~ due st now -> updateLcdTitle now now' st = mkOutcome tt st [].
Proof.
  unfold due, updateLcdTitle, bind, read, when; cbn [value final emitted].
  intros H.
  destruct (Z.leb_spec scrollInterval (CInt.to_unsigned (now - lastScrollTime st)));
    [contradiction | reflexivity].
Qed.

(** A due tick on a short title. *)
Lemma tick_static (now now' : Z) (st : Engine) :
  due st now ->
  WString.len (currentEventTitle st) <= 16 ->
  updateLcdTitle now now' st
  = mkOutcome tt
      {| ontime_host := ontime_host st; ontime_port := ontime_port st;
         currentEventTitle := currentEventTitle st;
         lastScrollTime := now'; scrollIndex := scrollIndex st |}
      [lcd_setCursor 0 0; lcd_print (fit16 (currentEventTitle st))].
Proof.
  unfold due, updateLcdTitle, bind, read, when, set_lastScrollTime, emit;
    cbn [value final emitted].
  intros Hdue Hlen.
  destruct (Z.leb_spec scrollInterval (CInt.to_unsigned (now - lastScrollTime st)));
    [| lia].
  cbn [value final emitted currentEventTitle scrollIndex app].
  destruct (Z.ltb_spec 16 (WString.len (currentEventTitle st))); [lia |].
  cbn [value final emitted app].
  rewrite pad16_spaces.
  unfold fit16.
  destruct (Nat.leb_spec (String.length (currentEventTitle st)) 16);
    [reflexivity | unfold WString.len in Hlen; lia].
Qed.

(** A due tick on a long title, in a state that satisfies the invariant. *)
Lemma tick_scrolling (now now' : Z) (st : Engine) :
  due st now ->
  16 < WString.len (currentEventTitle st) ->
  scroll_inv st ->
  holds_buffer (currentEventTitle st) ->
  updateLcdTitle now now' st
  = mkOutcome tt
      {| ontime_host := ontime_host st; ontime_port := ontime_port st;
         currentEventTitle := currentEventTitle st;
         lastScrollTime := now';
         scrollIndex := spec_advance (currentEventTitle st) (scrollIndex st) |}
      [lcd_setCursor 0 0;
       lcd_print (spec_window (currentEventTitle st) (scrollIndex st))].
Proof.
  unfold due, scroll_inv, holds_buffer.
  rewrite len_virtualBuffer.
  unfold CInt.INT_MAX.
  intros Hdue Hlen [Hlo Hhi] Hbuf.
  unfold updateLcdTitle, bind, read, when, set_lastScrollTime, set_scrollIndex, emit;
    cbn [value final emitted].
  destruct (Z.leb_spec scrollInterval (CInt.to_unsigned (now - lastScrollTime st)));
    [| lia].
  cbn [value final emitted currentEventTitle scrollIndex lastScrollTime
       ontime_host ontime_port app].
  destruct (Z.ltb_spec 16 (WString.len (currentEventTitle st))); [| lia].
  cbn [value final emitted currentEventTitle scrollIndex lastScrollTime
       ontime_host ontime_port app].
  rewrite (wrap_in_range (scrollIndex st + 16))
    by (unfold CInt.in_range, CInt.INT_MIN, CInt.INT_MAX; lia).
  rewrite (wrap_in_range (scrollIndex st + 1))
    by (unfold CInt.in_range, CInt.INT_MIN, CInt.INT_MAX; lia).
  rewrite !to_unsigned_nonneg by (unfold CInt.INT_MAX; lia).
  rewrite append_assoc; fold (virtualBuffer (currentEventTitle st)).
  rewrite substring_inside by (rewrite ?len_virtualBuffer; lia).
  replace (Z.to_nat (scrollIndex st + 16 - scrollIndex st)) with 16%nat by lia.
  unfold spec_advance, spec_window.
  destruct (Z.ltb_spec (WString.len (currentEventTitle st) + 3) (scrollIndex st + 1));
    reflexivity.
Qed.

(** The window of a long title is a full row. *)
Lemma length_spec_window (title : string) (cursorIndex : Z) :
  16 < WString.len title ->
  0 <= cursorIndex <= WString.len title + 3 ->
  String.length (spec_window title cursorIndex) = 16%nat.
Proof.
  intros Hlen Hc.
  unfold spec_window.
  apply length_substring.
  pose proof (len_virtualBuffer title) as E.
  unfold WString.len in *; lia.
Qed.

(** C8. On a due tick, a title longer than 16 characters is shown through
    the 16-character window of title + three spaces + title that starts at
    the cursor, and the cursor then moves on by one, back to 0 once it would
    pass the title length plus 3; a title of at most 16 characters is shown
    left-justified and padded with spaces to exactly 16 characters, and the
    cursor stays. *)
Theorem scroll_tick_rendering (now now' : Z) (st : Engine) :
  due st now ->
  let title := currentEventTitle st in
  let out := emitted (updateLcdTitle now now' st) in
  let st' := final (updateLcdTitle now now' st) in
  (16 < WString.len title -> scroll_inv st -> holds_buffer title ->
   out = [lcd_setCursor 0 0; lcd_print (spec_window title (scrollIndex st))]
   /\ String.length (spec_window title (scrollIndex st)) = 16%nat
   /\ scrollIndex st' = spec_advance title (scrollIndex st))
  /\ (WString.len title <= 16 ->
      out = [lcd_setCursor 0 0;
             lcd_print (title ++ spaces (16 - String.length title))]
      /\ String.length (title ++ spaces (16 - String.length title)) = 16%nat
      /\ scrollIndex st' = scrollIndex st).
Proof.
  intros Hdue; cbv zeta; split.
  - intros Hlen Hinv Hbuf.
    rewrite (tick_scrolling now now' st Hdue Hlen Hinv Hbuf).
    cbn [emitted final scrollIndex].
    split; [reflexivity |]; split; [| reflexivity].
    apply length_spec_window; assumption.
  - intros Hlen.
    rewrite (tick_static now now' st Hdue Hlen).
    cbn [emitted final scrollIndex].
    assert (Hn : (String.length (currentEventTitle st) <= 16)%nat)
      by (unfold WString.len in Hlen; lia).
    pose proof (length_fit16 (currentEventTitle st)) as L.
    unfold fit16 in *.
    destruct (Nat.leb_spec (String.length (currentEventTitle st)) 16); [| lia].
    split; [reflexivity |]; split; [exact L | reflexivity].
Qed.

Lemma scroll_tick_rendering_witness :
  due scrolled 5000
  /\ 16 < WString.len (currentEventTitle scrolled)
  /\ scroll_inv scrolled
  /\ holds_buffer (currentEventTitle scrolled)
  /\ emitted (updateLcdTitle 5000 5001 scrolled)
     = [lcd_setCursor 0 0; lcd_print "ry Long Event Ti"]
  /\ scrollIndex (final (updateLcdTitle 5000 5001 scrolled)) = 13.
Proof.
  assert (Hdue : due scrolled 5000) by (vm_compute; discriminate).
  assert (Hlen : 16 < WString.len (currentEventTitle scrolled)) by reflexivity.
  assert (Hinv : scroll_inv scrolled) by (vm_compute; split; discriminate).
  assert (Hbuf : holds_buffer (currentEventTitle scrolled))
    by (vm_compute; discriminate).
  repeat (split; [assumption |]).
  destruct (scroll_tick_rendering 5000 5001 scrolled Hdue) as [Long _].
  destruct (Long Hlen Hinv Hbuf) as (Out & _ & Idx).
  split; [rewrite Out; reflexivity | rewrite Idx; reflexivity].
Defined.

(** The scenario of the specification: five ticks on a long title, 400 ms
    apart, show five windows one character apart. *)
Example five_ticks :
  let st0 :=
    {| ontime_host := "example.com"; ontime_port := 443;
       currentEventTitle := "This Is A Very Long Event Title";
       lastScrollTime := 0; scrollIndex := 0 |} in
  let run :=
    (updateLcdTitle 400 400 ;; updateLcdTitle 800 800 ;;
     updateLcdTitle 1200 1200 ;; updateLcdTitle 1600 1600 ;;
     updateLcdTitle 2000 2000) st0 in
  lcdWrites (emitted run)
  = [lcd_setCursor 0 0; lcd_print "This Is A Very L";
     lcd_setCursor 0 0; lcd_print "his Is A Very Lo";
     lcd_setCursor 0 0; lcd_print "is Is A Very Lon";
     lcd_setCursor 0 0; lcd_print "s Is A Very Long";
     lcd_setCursor 0 0; lcd_print " Is A Very Long "]
  /\ scrollIndex (final run) = 5.
Proof. vm_compute. split; reflexivity. Qed.

(** The cursor wraps after the position title length + 3. *)
Example wrap_at_the_end :
  let st0 :=
    {| ontime_host := "example.com"; ontime_port := 443;
       currentEventTitle := "This Is A Very Long Event Title";
       lastScrollTime := 0; scrollIndex := 34 |} in
  emitted (updateLcdTitle 400 400 st0)
  = [lcd_setCursor 0 0; lcd_print "This Is A Very L"]
  /\ scrollIndex (final (updateLcdTitle 400 400 st0)) = 0.
Proof. vm_compute. split; reflexivity. Qed.

(** ** The scroll invariant *)

Lemma retitle_inv (newTitle : string) (st : Engine) :
  scroll_inv st ->
  scroll_inv (retitle newTitle st)
  /\ (currentEventTitle (retitle newTitle st) <> currentEventTitle st ->
      scrollIndex (retitle newTitle st) = 0).
Proof.
  unfold retitle; intros Hinv.
  destruct (String.eqb_spec newTitle (currentEventTitle st)) as [E | N].
  - split; [exact Hinv | intros C; contradiction].
  - split; [| reflexivity].
    unfold scroll_inv, WString.len; cbn [scrollIndex currentEventTitle]; lia.
Qed.

Lemma onText_final (doc : JSONVar) (st : Engine) :
  final (onText doc st) = st
  \/ final (onText doc st) = retitle (resolvedTitle doc (currentEventTitle st)) st.
Proof.
  destruct (timerOf doc) as [timer |] eqn:E.
  - right; rewrite (onText_with_timer doc timer st E); reflexivity.
  - left; rewrite (onText_without_timer doc st E); reflexivity.
Qed.

(** Every event leaves the invariant in place, and a new title comes with
    the cursor at 0. *)
Lemma webSocketEvent_inv
    (JSON_parse : string -> JSONVar) (type : WStype_t) (payload : string)
    (st : Engine) :
  scroll_inv st ->
  let st' := final (webSocketEvent JSON_parse type payload st) in
  scroll_inv st'
  /\ (currentEventTitle st' <> currentEventTitle st -> scrollIndex st' = 0).
Proof.
  intros Hinv; cbv zeta.
  destruct type;
    try (split; [exact Hinv | intros C; exfalso; apply C; reflexivity]).
  cbn [webSocketEvent].
  destruct (onText_final (JSON_parse payload) st) as [E | E]; rewrite E.
  - split; [exact Hinv | intros C; contradiction].
  - apply retitle_inv; exact Hinv.
Qed.

(** A scroll tick leaves the title and the invariant in place. *)
Lemma updateLcdTitle_inv (now now' : Z) (st : Engine) :
  scroll_inv st ->
  holds_buffer (currentEventTitle st) ->
  let st' := final (updateLcdTitle now now' st) in
  scroll_inv st' /\ currentEventTitle st' = currentEventTitle st.
Proof.
  intros Hinv Hbuf; cbv zeta.
  destruct (Z.leb_spec scrollInterval (CInt.to_unsigned (now - lastScrollTime st)))
    as [Hdue | Hnot].
  - destruct (Z.ltb_spec 16 (WString.len (currentEventTitle st))) as [Hlong | Hshort].
    + rewrite (tick_scrolling now now' st Hdue Hlong Hinv Hbuf).
      cbn [final]; split; [| reflexivity].
      unfold scroll_inv in *; cbn [scrollIndex currentEventTitle].
      unfold spec_advance.
      destruct (Z.ltb_spec (WString.len (currentEventTitle st) + 3)
                           (scrollIndex st + 1)); lia.
    + rewrite (tick_static now now' st Hdue Hshort).
      cbn [final]; split; [exact Hinv | reflexivity].
  - rewrite tick_not_due by (unfold due; lia).
    split; [exact Hinv | reflexivity].
Qed.

(** The events of one turn of the socket, taken in order. *)
Lemma webSocket_loop_inv (JSON_parse : string -> JSONVar)
    (events : list (WStype_t * string)) :
  forall st, scroll_inv st ->
  scroll_inv (final (webSocket_loop JSON_parse events st)).
Proof.
  induction events as [| [type payload] rest IH]; intros st Hinv.
  - exact Hinv.
  - cbn [webSocket_loop]; unfold bind; cbn [final].
    apply IH.
    apply (webSocketEvent_inv JSON_parse type payload st Hinv).
Qed.

(** What a due tick prints when the cursor is at 0. *)
Lemma tick_from_zero (now now' : Z) (st : Engine) :
  scrollIndex st = 0 ->
  due st now ->
  emitted (updateLcdTitle now now' st)
  = [lcd_setCursor 0 0;
     lcd_print (if 16 <? WString.len (currentEventTitle st)
                then spec_window (currentEventTitle st) 0
                else fit16 (currentEventTitle st))].
Proof.
  intros Hzero Hdue.
  destruct (Z.ltb_spec 16 (WString.len (currentEventTitle st))) as [Hlong | Hshort].
  - unfold due in Hdue.
    unfold updateLcdTitle, bind, read, when, set_lastScrollTime, set_scrollIndex, emit;
      cbn [value final emitted].
    destruct (Z.leb_spec scrollInterval (CInt.to_unsigned (now - lastScrollTime st)));
      [| lia].
    cbn [value final emitted currentEventTitle scrollIndex lastScrollTime
         ontime_host ontime_port app].
    destruct (Z.ltb_spec 16 (WString.len (currentEventTitle st))); [| lia].
    cbn [value final emitted currentEventTitle scrollIndex lastScrollTime
         ontime_host ontime_port app].
    rewrite Hzero.
    change (CInt.to_unsigned 0) with 0.
    change (CInt.to_unsigned (CInt.wrap (0 + 16))) with 16.
    rewrite append_assoc; fold (virtualBuffer (currentEventTitle st)).
    rewrite substring_inside by (rewrite ?len_virtualBuffer; lia).
    destruct (CInt.to_unsigned (WString.len (currentEventTitle st) + 3)
              <? CInt.to_unsigned (CInt.wrap (0 + 1))); reflexivity.
  - rewrite (tick_static now now' st Hdue Hshort); reflexivity.
Qed.

Lemma boot_scroll_inv : scroll_inv boot.
Proof. unfold scroll_inv; vm_compute; split; discriminate. Qed.

(** C7. The scroll cursor stays between 0 and the length of the displayed
    title plus 3 under every operation. An event of the socket keeps the
    invariant, and when it changes the displayed title it leaves the cursor
    at 0, so that the next due tick shows the new title from its start. A
    scroll tick keeps the title and the invariant. *)
Theorem scroll_invariant (JSON_parse : string -> JSONVar) (st : Engine) :
  scroll_inv st ->
  (forall type payload,
     let st' := final (webSocketEvent JSON_parse type payload st) in
     scroll_inv st'
     /\ (currentEventTitle st' <> currentEventTitle st ->
         scrollIndex st' = 0
         /\ forall now now', due st' now ->
            emitted (updateLcdTitle now now' st')
            = [lcd_setCursor 0 0;
               lcd_print (if 16 <? WString.len (currentEventTitle st')
                          then spec_window (currentEventTitle st') 0
                          else fit16 (currentEventTitle st'))]))
  /\ (forall now now',
        holds_buffer (currentEventTitle st) ->
        let st' := final (updateLcdTitle now now' st) in
        scroll_inv st' /\ currentEventTitle st' = currentEventTitle st).
Proof.
  intros Hinv; split.
  - intros type payload; cbv zeta.
    destruct (webSocketEvent_inv JSON_parse type payload st Hinv) as [Hinv' Hzero].
    split; [exact Hinv' |].
    intros Hnew; split; [exact (Hzero Hnew) |].
    intros now now' Hdue.
    apply tick_from_zero; [exact (Hzero Hnew) | exact Hdue].
  - intros now now' Hbuf.
    apply updateLcdTitle_inv; assumption.
Qed.

Lemma scroll_invariant_witness :
  scroll_inv scrolled
  /\ scroll_inv (final (webSocketEvent sample_parse WStype_TEXT "full" scrolled))
  /\ currentEventTitle (final (webSocketEvent sample_parse WStype_TEXT "full" scrolled))
     = "Keynote"
  /\ scrollIndex (final (webSocketEvent sample_parse WStype_TEXT "full" scrolled)) = 0
  /\ holds_buffer (currentEventTitle scrolled)
  /\ scroll_inv (final (updateLcdTitle 5000 5001 scrolled)).
Proof.
  assert (Hinv : scroll_inv scrolled) by (vm_compute; split; discriminate).
  assert (Hbuf : holds_buffer (currentEventTitle scrolled))
    by (vm_compute; discriminate).
  destruct (scroll_invariant sample_parse scrolled Hinv) as [Event Tick].
  destruct (Event WStype_TEXT "full") as [Hinv' Hnew].
  destruct (Tick 5000 5001 Hbuf) as [Hinv'' _].
  split; [exact Hinv |]; split; [exact Hinv' |]; split; [reflexivity |].
  split; [apply Hnew; discriminate |]; split; [exact Hbuf | exact Hinv''].
Defined.

(** ** The whole translation of a timer object *)

Lemma currentMs_in_range (timer : JSONVar) : CInt.in_range (currentMs timer).
Proof.
  unfold currentMs, CInt.in_range, CInt.INT_MIN, CInt.INT_MAX.
  destruct (hasOwnProperty timer "current"); [| lia].
  destruct (get timer "current"); cbn [to_long];
    unfold CInt.INT_MIN, CInt.INT_MAX; lia.
Qed.

(** Unless the time is the most negative [long], the frame and the status
    row of a timer object are those of the specification: formatter,
    resolver, encoder and renderer put together. *)
Lemma timerOutputs_spec (timer : JSONVar) :
  let ms := currentMs timer in
  let r := spec_resolve (colorTag timer) (phaseTag timer) (ms <? 0)
                        (playbackTag timer) in
  CInt.INT_MIN < ms ->
  timerOutputs timer
  = [ Serial1_write (formatByte (spec_minutes ms));
      Serial1_write (formatByte (spec_seconds ms));
      Serial1_write (byteOf (fst r));
      lcd_setCursor 0 1;
      lcd_print (spec_statusRow (snd r) (spec_minutes ms) (spec_seconds ms)
                                (ms <? 0)) ].
Proof.
  cbv zeta; intros Hmin.
  pose proof (currentMs_in_range timer) as [_ Hmax].
  destruct (time_formatter_in_range (currentMs timer) (conj Hmin Hmax))
    as (_ & Em & Es & Bm & Bs).
  unfold timerOutputs.
  rewrite line1_fit16, timeStr_spec by assumption.
  rewrite colorByte_class, lcdStatus_resolve, Em, Es.
  unfold spec_statusRow, spec_resolve.
  destruct (playbackTag timer) as [p |]; [| reflexivity].
  destruct ((p =? "play")%string || (p =? "start")%string); reflexivity.
Qed.

(** ** Reachable states *)

(** The invariant holds in every state the sketch can reach. *)
Lemma reachable_scroll_inv (JSON_parse : string -> JSONVar) (st : Engine) :
  reachable JSON_parse st -> scroll_inv st.
Proof.
  induction 1 as [host port | st type payload _ IH | st now now' _ IH Hbuf].
  - unfold scroll_inv; vm_compute; split; discriminate.
  - apply (webSocketEvent_inv JSON_parse type payload st IH).
  - apply (updateLcdTitle_inv now now' st IH Hbuf).
Qed.

(** One turn of [loop] from a state that satisfies the invariant. *)
Lemma loop_inv (JSON_parse : string -> JSONVar)
    (events : list (WStype_t * string)) (now now' : Z) (st : Engine) :
  scroll_inv st ->
  holds_buffer (currentEventTitle (final (webSocket_loop JSON_parse events st))) ->
  scroll_inv (final (loop JSON_parse events now now' st)).
Proof.
  intros Hinv Hbuf.
  unfold loop, bind; cbn [final].
  apply updateLcdTitle_inv; [| exact Hbuf].
  apply webSocket_loop_inv; exact Hinv.
Qed.

(** In a reachable state a due tick on a long title shows a full row: the
    window at the cursor. *)
Lemma reachable_tick_window
    (JSON_parse : string -> JSONVar) (now now' : Z) (st : Engine) :
  reachable JSON_parse st ->
  due st now ->
  16 < WString.len (currentEventTitle st) ->
  holds_buffer (currentEventTitle st) ->
  emitted (updateLcdTitle now now' st)
  = [lcd_setCursor 0 0;
     lcd_print (spec_window (currentEventTitle st) (scrollIndex st))].
Proof.
  intros Hreach Hdue Hlen Hbuf.
  rewrite (tick_scrolling now now' st Hdue Hlen
             (reachable_scroll_inv JSON_parse st Hreach) Hbuf).
  reflexivity.
Qed.

(** * Further properties of the sketch *)

(** ** Connection events *)

(** X1. An event of any type but [WStype_TEXT] (disconnected, connected,
    error, binary, fragments, ping, pong) changes no global and sends nothing
    to the numeric display; the types the handler has no case for send
    nothing at all. *)
Theorem connection_events_keep_engine
    (JSON_parse : string -> JSONVar) (type : WStype_t) (payload : string)
    (st : Engine) :
  type <> WStype_TEXT ->
  final (webSocketEvent JSON_parse type payload st) = st
  /\ serialFrame (emitted (webSocketEvent JSON_parse type payload st)) = []
  /\ (type <> WStype_ERROR -> type <> WStype_DISCONNECTED ->
      type <> WStype_CONNECTED ->
      emitted (webSocketEvent JSON_parse type payload st) = []).
Proof.
  intros Htext.
  destruct type; try contradiction;
    (split; [reflexivity |]; split; [reflexivity |]);
    intros He Hd Hc; try contradiction; reflexivity.
Qed.

Lemma connection_events_keep_engine_witness :
  WStype_DISCONNECTED <> WStype_TEXT
  /\ final (webSocketEvent sample_parse WStype_DISCONNECTED "" scrolled) = scrolled
  /\ serialFrame (emitted (webSocketEvent sample_parse WStype_DISCONNECTED "" scrolled))
     = [].
Proof.
  split; [discriminate |].
  destruct (connection_events_keep_engine sample_parse WStype_DISCONNECTED ""
              scrolled) as (F & S & _); [discriminate |].
  split; [exact F | exact S].
Defined.

(** ** The frame on the wire *)

Lemma formatByte_two_digits (v : Z) :
  0 <= v <= 99 ->
  two_bcd_digits (formatByte v) /\ decodeByte (formatByte v) = v.
Proof.
  intros Hv.
  pose (P := fun v => (0 <=? formatByte v) && (formatByte v <? 256)
                      && (Z.land (formatByte v) 15 <=? 9)
                      && (Z.shiftr (formatByte v) 4 <=? 9)
                      && (decodeByte (formatByte v) =? v)).
  assert (HP : P v = true).
  { apply (below_forallb P 100); [vm_compute; reflexivity | lia]. }
  unfold P in HP.
  repeat (apply andb_true_iff in HP; destruct HP as [HP ?]).
  unfold two_bcd_digits.
  repeat split; try (apply Z.leb_le; assumption);
    try (apply Z.ltb_lt; assumption); try (apply Z.eqb_eq; assumption).
Qed.

Lemma colorByte_cases (c : string) :
  colorByte c = 1 \/ colorByte c = 2 \/ colorByte c = 3.
Proof.
  unfold colorByte.
  destruct (c =? "red")%string; [auto |].
  destruct (c =? "amber")%string; auto.
Qed.

(** X2. For a message with a timer object whose time is not the most negative
    [long], the frame sent to the numeric display is exactly three bytes:
    two bytes that each hold two decimal digits, reading as minutes within
    0..99 and seconds within 0..59, and a colour byte that is 1, 2 or 3. *)
Theorem frame_well_formed (doc timer : JSONVar) (st : Engine) :
  timerOf doc = Some timer ->
  CInt.INT_MIN < currentMs timer ->
  exists m s c,
    serialFrame (emitted (onText doc st)) = [m; s; c]
    /\ two_bcd_digits m /\ 0 <= decodeByte m <= 99
    /\ two_bcd_digits s /\ 0 <= decodeByte s <= 59
    /\ (c = 1 \/ c = 2 \/ c = 3).
Proof.
  intros Htimer Hmin.
  rewrite (onText_with_timer doc timer st Htimer); cbn [emitted].
  pose proof (currentMs_in_range timer) as [_ Hmax].
  destruct (time_formatter_in_range (currentMs timer) (conj Hmin Hmax))
    as (_ & _ & _ & Bm & Bs).
  destruct (formatByte_two_digits (minutes (currentMs timer))) as [Dm Em]; [lia |].
  destruct (formatByte_two_digits (seconds (currentMs timer))) as [Ds Es]; [lia |].
  eexists _, _, _; split; [reflexivity |].
  rewrite Em, Es.
  repeat split; try assumption; try lia; try apply Dm; try apply Ds.
  apply colorByte_cases.
Qed.

Lemma frame_well_formed_witness :
  timerOf (sample_parse "timer") = Some sample_timer
  /\ CInt.INT_MIN < currentMs sample_timer
  /\ exists m s c,
       serialFrame (emitted (onText (sample_parse "timer") boot)) = [m; s; c]
       /\ two_bcd_digits m /\ 0 <= decodeByte m <= 99
       /\ two_bcd_digits s /\ 0 <= decodeByte s <= 59
       /\ (c = 1 \/ c = 2 \/ c = 3).
Proof.
  split; [reflexivity |]; split; [reflexivity |].
  apply (frame_well_formed (sample_parse "timer") sample_timer boot);
    reflexivity.
Defined.

(** ** Two-digit printing *)

(** X3. [printTwoDigits] leaves the globals alone and, for a number within
    0..99, puts exactly two characters on the LCD: the tens digit and the
    ones digit. *)
Theorem printTwoDigits_two_characters (number : Z) (st : Engine) :
  0 <= number <= 99 ->
  lcdText (emitted (printTwoDigits number st)) = two_digits number
  /\ String.length (lcdText (emitted (printTwoDigits number st))) = 2%nat
  /\ final (printTwoDigits number st) = st.
Proof.
  intros Hn.
  assert (E : lcdText (emitted (printTwoDigits number st)) = two_digits number).
  { rewrite <- (two_digits_of_int number Hn).
    unfold printTwoDigits, bind, when, emit, ret; cbn [value final emitted].
    destruct (number <? 10); cbn [value final emitted app lcdText];
      rewrite ?append_nil_r; reflexivity. }
  split; [exact E |]; split; [rewrite E; reflexivity |].
  unfold printTwoDigits, bind, when, emit, ret.
  destruct (number <? 10); reflexivity.
Qed.

Lemma printTwoDigits_two_characters_witness :
  0 <= 5 <= 99
  /\ lcdText (emitted (printTwoDigits 5 boot)) = "05"
  /\ String.length (lcdText (emitted (printTwoDigits 5 boot))) = 2%nat.
Proof.
  split; [lia |].
  destruct (printTwoDigits_two_characters 5 boot) as (E & L & _); [lia |].
  split; [rewrite E; reflexivity | exact L].
Defined.

(** ** The status row is never cut *)

Lemma lcdStatus_cases (timer : JSONVar) (c : string) :
  lcdStatus timer c = "Over" \/ lcdStatus timer c = "Warn"
  \/ lcdStatus timer c = "Running" \/ lcdStatus timer c = "Stopped".
Proof.
  unfold lcdStatus.
  destruct (hasOwnProperty timer "playback");
    [destruct (negb (field timer "playback" =? "play")%string
               && negb (field timer "playback" =? "start")%string); [auto |] |];
    destruct (c =? "red")%string; auto;
    destruct (c =? "amber")%string; auto.
Qed.

Lemma length_lcdStatus (timer : JSONVar) (c : string) :
  (String.length (lcdStatus timer c) <= 7)%nat.
Proof.
  destruct (lcdStatus_cases timer c) as [E | [E | [E | E]]]; rewrite E;
    cbn [String.length]; lia.
Qed.

Lemma length_timeStr (ms m s : Z) :
  0 <= m <= 99 -> 0 <= s <= 59 ->
  (5 <= String.length (timeStr ms m s) <= 6)%nat.
Proof.
  intros Hm Hs.
  rewrite timeStr_spec by assumption.
  unfold two_digits.
  destruct (ms <? 0); cbn [append String.length]; lia.
Qed.

(** X4. For a message with a timer object whose time is not the most negative
    [long], the status row is the label (one of Over, Warn, Running,
    Stopped), a space and the time, all of it, followed by at least two
    spaces: the cut to 16 characters never removes a character of the
    label or of the time. *)
Theorem status_row_never_cut (doc timer : JSONVar) (st : Engine) :
  timerOf doc = Some timer ->
  CInt.INT_MIN < currentMs timer ->
  let ms := currentMs timer in
  let label := lcdStatus timer (cStr timer ms) in
  let text := label ++ " " ++ timeStr ms (minutes ms) (seconds ms) in
  (label = "Over" \/ label = "Warn" \/ label = "Running" \/ label = "Stopped")
  /\ (String.length text <= 14)%nat
  /\ lcdWrites (emitted (onText doc st))
     = [lcd_setCursor 0 1;
        lcd_print (text ++ spaces (16 - String.length text))].
Proof.
  intros Htimer Hmin; cbv zeta.
  pose proof (currentMs_in_range timer) as [_ Hmax].
  destruct (time_formatter_in_range (currentMs timer) (conj Hmin Hmax))
    as (_ & _ & _ & Bm & Bs).
  pose proof (length_lcdStatus timer (cStr timer (currentMs timer))) as Ll.
  pose proof (length_timeStr (currentMs timer) _ _ Bm Bs) as Lt.
  assert (Hlen : (String.length
                    (lcdStatus timer (cStr timer (currentMs timer)) ++ " "
                     ++ timeStr (currentMs timer) (minutes (currentMs timer))
                          (seconds (currentMs timer))) <= 14)%nat).
  { rewrite !length_append; cbn [String.length]; lia. }
  split; [apply lcdStatus_cases |]; split; [exact Hlen |].
  rewrite (onText_with_timer doc timer st Htimer); cbn [emitted].
  unfold timerOutputs; cbn [lcdWrites].
  rewrite line1_fit16; unfold fit16.
  destruct (Nat.leb_spec
              (String.length
                 (lcdStatus timer (cStr timer (currentMs timer)) ++ " "
                  ++ timeStr (currentMs timer) (minutes (currentMs timer))
                       (seconds (currentMs timer)))) 16); [reflexivity | lia].
Qed.

Lemma status_row_never_cut_witness :
  timerOf (sample_parse "timer") = Some sample_timer
  /\ CInt.INT_MIN < currentMs sample_timer
  /\ lcdWrites (emitted (onText (sample_parse "timer") boot))
     = [lcd_setCursor 0 1; lcd_print "Stopped -01:05  "].
Proof.
  split; [reflexivity |]; split; [reflexivity |].
  destruct (status_row_never_cut (sample_parse "timer") sample_timer boot)
    as (_ & _ & R); [reflexivity | reflexivity |].
  rewrite R; reflexivity.
Defined.

(** ** Rounding of the countdown *)

(** X5. A countdown is rounded up and an overtime down: for a positive time
    the seconds shown are the least whole number of seconds that covers the
    milliseconds, so they are at least 1, and for a time of zero or below
    (the most negative [long] apart) they are the whole seconds that have
    passed. The display therefore reads 00:00 in the countdown only when no
    time is left. *)
Theorem countdown_rounding (ms : Z) :
  CInt.INT_MIN < ms <= CInt.INT_MAX ->
  (0 < ms ->
   1000 * (totalSeconds ms - 1) < ms <= 1000 * totalSeconds ms
   /\ ~ (minutes ms = 0 /\ seconds ms = 0))
  /\ (ms <= 0 ->
      1000 * totalSeconds ms <= - ms < 1000 * (totalSeconds ms + 1)).
Proof.
  intros Hr.
  destruct (totalSeconds_in_range ms Hr) as [E B].
  destruct (time_formatter_in_range ms Hr) as (_ & Em & Es & _ & _).
  assert (Hspec : spec_totalSeconds ms
                  = if (0 <? ms) && negb (Z.abs ms mod 1000 =? 0)
                    then Z.abs ms / 1000 + 1 else Z.abs ms / 1000)
    by reflexivity.
  pose proof (Z.div_mod (Z.abs ms) 1000 ltac:(lia)) as Hdm.
  pose proof (Z.mod_pos_bound (Z.abs ms) 1000 ltac:(lia)) as Hmod.
  split.
  - intros Hpos.
    assert (Hts : 1000 * (totalSeconds ms - 1) < ms <= 1000 * totalSeconds ms).
    { rewrite E, Hspec.
      destruct (Z.ltb_spec 0 ms); [| lia].
      destruct (Z.eqb_spec (Z.abs ms mod 1000) 0); cbn [andb negb]; lia. }
    split; [exact Hts |].
    intros [Hm Hs].
    rewrite Em in Hm; rewrite Es in Hs.
    unfold spec_minutes, spec_seconds in Hm, Hs.
    rewrite <- E in Hm, Hs.
    assert (Hq : totalSeconds ms / 60 = 0) by lia.
    pose proof (Z.div_mod (totalSeconds ms) 60 ltac:(lia)).
    lia.
  - intros Hneg.
    rewrite E, Hspec.
    destruct (Z.ltb_spec 0 ms); [lia |].
    cbn [andb]; lia.
Qed.

Lemma countdown_rounding_witness :
  CInt.INT_MIN < 100 <= CInt.INT_MAX
  /\ 1000 * (totalSeconds 100 - 1) < 100 <= 1000 * totalSeconds 100
  /\ totalSeconds 100 = 1.
Proof.
  assert (Hr : CInt.INT_MIN < 100 <= CInt.INT_MAX)
    by (unfold CInt.INT_MIN, CInt.INT_MAX; lia).
  split; [exact Hr |].
  destruct (countdown_rounding 100 Hr) as [Pos _].
  destruct (Pos ltac:(lia)) as [B _].
  split; [exact B | reflexivity].
Defined.

(** X6. From 99 minutes on the minutes stay at 99 while the seconds go on:
    a time of at least 99:00 and the time one minute further are shown
    alike, so the display cannot tell them apart. *)
Theorem minutes_cap_aliases (ms : Z) :
  5940000 <= ms ->
  ms + 60000 <= CInt.INT_MAX ->
  minutes ms = 99
  /\ minutes (ms + 60000) = 99
  /\ seconds (ms + 60000) = seconds ms.
Proof.
  intros Hlo Hhi.
  unfold CInt.INT_MAX in Hhi.
  assert (Hr : CInt.INT_MIN < ms <= CInt.INT_MAX)
    by (unfold CInt.INT_MIN, CInt.INT_MAX; lia).
  assert (Hr' : CInt.INT_MIN < ms + 60000 <= CInt.INT_MAX)
    by (unfold CInt.INT_MIN, CInt.INT_MAX; lia).
  destruct (time_formatter_in_range ms Hr) as (_ & Em & Es & _ & _).
  destruct (time_formatter_in_range (ms + 60000) Hr') as (_ & Em' & Es' & _ & _).
  assert (Ht : spec_totalSeconds (ms + 60000) = spec_totalSeconds ms + 60).
  { unfold spec_totalSeconds.
    rewrite !Z.abs_eq by lia.
    replace (ms + 60000) with (ms + 60 * 1000) by lia.
    rewrite Z.mod_add, Z.div_add by lia.
    destruct (Z.ltb_spec 0 ms); [| lia].
    destruct (Z.ltb_spec 0 (ms + 60 * 1000)); [| lia].
    destruct (negb (ms mod 1000 =? 0)); cbn [andb]; lia. }
  assert (Hbig : 5940 <= spec_totalSeconds ms).
  { unfold spec_totalSeconds.
    rewrite Z.abs_eq by lia.
    assert (5940 <= ms / 1000) by (apply Z.div_le_lower_bound; lia).
    destruct ((0 <? ms) && negb (ms mod 1000 =? 0)); lia. }
  rewrite Em, Em', Es, Es'.
  unfold spec_minutes, spec_seconds.
  rewrite Ht.
  assert (99 <= spec_totalSeconds ms / 60)
    by (apply Z.div_le_lower_bound; lia).
  assert (99 <= (spec_totalSeconds ms + 60) / 60)
    by (apply Z.div_le_lower_bound; lia).
  split; [lia |]; split; [lia |].
  replace (spec_totalSeconds ms + 60) with (spec_totalSeconds ms + 1 * 60) by lia.
  apply Z.mod_add; lia.
Qed.

Lemma minutes_cap_aliases_witness :
  5940000 <= 5999000 /\ 5999000 + 60000 <= CInt.INT_MAX
  /\ minutes 5999000 = 99 /\ seconds 5999000 = 59
  /\ minutes 6059000 = 99 /\ seconds 6059000 = 59.
Proof.
  assert (H1 : 5940000 <= 5999000) by lia.
  assert (H2 : 5999000 + 60000 <= CInt.INT_MAX) by (unfold CInt.INT_MAX; lia).
  destruct (minutes_cap_aliases 5999000 H1 H2) as (A & B & C).
  split; [exact H1 |]; split; [exact H2 |].
  split; [exact A |]; split; [reflexivity |]; split; [exact B |].
  reflexivity.
Defined.

(** ** Members of the wrong kind *)



(** ** Which title wins *)

Lemma title_retitle (newTitle : string) (st : Engine) :
  currentEventTitle (retitle newTitle st) = newTitle.
Proof.
  unfold retitle.
  destruct (String.eqb_spec newTitle (currentEventTitle st)) as [E | _];
    [symmetry; exact E | reflexivity].
Qed.

Lemma retitle_same (st : Engine) : retitle (currentEventTitle st) st = st.
Proof. unfold retitle; rewrite String.eqb_refl; reflexivity. Qed.

(** X8. For a message with a timer object the displayed title afterwards is
    the timer's "label" when there is one, else the timer's "title", else
    the title of "eventNow", and when the message names no title at all the
    whole state stays as it was. *)
Theorem title_precedence (doc timer : JSONVar) (st : Engine) :
  timerOf doc = Some timer ->
  let st' := final (onText doc st) in
  let eventNow := get (get doc "payload") "eventNow" in
  let has_event_title :=
    hasOwnProperty (get doc "payload") "eventNow"
    && hasOwnProperty eventNow "title" in
  (hasOwnProperty timer "label" = true ->
   currentEventTitle st' = field timer "label")
  /\ (hasOwnProperty timer "label" = false ->
      hasOwnProperty timer "title" = true ->
      currentEventTitle st' = field timer "title")
  /\ (hasOwnProperty timer "label" = false ->
      hasOwnProperty timer "title" = false ->
      has_event_title = true ->
      currentEventTitle st' = field eventNow "title")
  /\ (hasOwnProperty timer "label" = false ->
      hasOwnProperty timer "title" = false ->
      has_event_title = false ->
      st' = st).
Proof.
  intros Htimer; cbv zeta.
  destruct (timerOf_Some doc timer Htimer) as (_ & _ & _ & Heq).
  rewrite (onText_with_timer doc timer st Htimer); cbn [final].
  unfold resolvedTitle; rewrite Heq.
  unfold timerTitle, eventNowTitle.
  repeat split.
  - intros Hl; rewrite Hl; apply title_retitle.
  - intros Hl Ht; rewrite Hl, Ht; apply title_retitle.
  - intros Hl Ht He; rewrite Hl, Ht.
    apply andb_true_iff in He as [He1 He2]; rewrite He1, He2.
    apply title_retitle.
  - intros Hl Ht He; rewrite Hl, Ht.
    destruct (hasOwnProperty (get doc "payload") "eventNow");
      [cbn [andb] in He; rewrite He |]; apply retitle_same.
Qed.

Lemma title_precedence_witness :
  timerOf labelled_message = Some labelled_timer
  /\ hasOwnProperty labelled_timer "label" = true
  /\ currentEventTitle (final (onText labelled_message scrolled)) = "Panel"
  /\ scrollIndex (final (onText labelled_message scrolled)) = 0.
Proof.
  split; [reflexivity |]; split; [reflexivity |].
  destruct (title_precedence labelled_message labelled_timer scrolled eq_refl)
    as (L & _).
  split; [rewrite (L eq_refl); reflexivity | reflexivity].
Defined.

(** ** Delivering a message again *)

Lemma resolvedTitle_again (doc : JSONVar) (displayed : string) :
  resolvedTitle doc (resolvedTitle doc displayed) = resolvedTitle doc displayed.
Proof.
  unfold resolvedTitle, timerTitle, eventNowTitle.
  destruct (hasOwnProperty (get (get doc "payload") "timer") "label");
    [reflexivity |].
  destruct (hasOwnProperty (get (get doc "payload") "timer") "title");
    [reflexivity |].
  destruct (hasOwnProperty (get doc "payload") "eventNow"); [| reflexivity].
  destruct (hasOwnProperty (get (get doc "payload") "eventNow") "title");
    reflexivity.
Qed.

(** X9. Handling a text message a second time right after the first changes
    nothing: the state stays what the first delivery made it, in particular
    the scroll cursor is not sent back to 0 again, and the same outputs are
    sent once more. *)
Theorem redelivery_changes_nothing (doc : JSONVar) (st : Engine) :
  let once := onText doc st in
  onText doc (final once) = mkOutcome tt (final once) (emitted once).
Proof.
  cbv zeta.
  destruct (timerOf doc) as [timer |] eqn:E.
  - rewrite (onText_with_timer doc timer st E); cbn [final emitted].
    rewrite (onText_with_timer doc timer _ E).
    rewrite title_retitle, resolvedTitle_again.
    rewrite <- (title_retitle (resolvedTitle doc (currentEventTitle st)) st) at 1.
    rewrite retitle_same; reflexivity.
  - rewrite (onText_without_timer doc st E); cbn [final emitted].
    apply (onText_without_timer doc st E).
Qed.

Lemma title_from_label (doc timer : JSONVar) (st : Engine) :
  timerOf doc = Some timer ->
  hasOwnProperty timer "label" = true ->
  currentEventTitle (final (onText doc st)) = field timer "label".
Proof.
  intros Htimer Hl.
  destruct (timerOf_Some doc timer Htimer) as (_ & _ & _ & Heq).
  rewrite (onText_with_timer doc timer st Htimer); cbn [final].
  unfold resolvedTitle, timerTitle; rewrite Heq, Hl.
  apply title_retitle.
Qed.

(** X10. A "label" that is not a string (a number, say) blanks the title:
    the displayed title becomes empty, and the next due tick fills row 0
    with sixteen spaces. *)
Theorem label_of_wrong_kind_blanks_title (doc timer : JSONVar) (st : Engine) :
  timerOf doc = Some timer ->
  hasOwnProperty timer "label" = true ->
  to_cstr (get timer "label") = None ->
  let st' := final (onText doc st) in
  currentEventTitle st' = ""
  /\ forall now now', due st' now ->
     emitted (updateLcdTitle now now' st')
     = [lcd_setCursor 0 0; lcd_print "                "].
Proof.
  intros Htimer Hl Hnull; cbv zeta.
  pose proof (title_from_label doc timer st Htimer Hl) as E.
  assert (Et : currentEventTitle (final (onText doc st)) = "").
  { rewrite E; unfold field; rewrite Hnull; reflexivity. }
  split; [exact Et |].
  intros now now' Hdue.
  rewrite (tick_static now now' _ Hdue)
    by (rewrite Et; unfold WString.len; cbn [String.length]; lia).
  cbn [emitted]; rewrite Et; reflexivity.
Qed.

Lemma label_of_wrong_kind_blanks_title_witness :
  timerOf numbered_label_message
  = Some (object [("label", number 7); ("current", str "soon")])
  /\ currentEventTitle (final (onText numbered_label_message scrolled)) = ""
  /\ emitted (updateLcdTitle 5000 5000 (final (onText numbered_label_message scrolled)))
     = [lcd_setCursor 0 0; lcd_print "                "].
Proof.
  split; [reflexivity |].
  destruct (label_of_wrong_kind_blanks_title numbered_label_message
              (object [("label", number 7); ("current", str "soon")]) scrolled
              eq_refl eq_refl eq_refl) as [E T].
  split; [exact E |].
  apply T; vm_compute; discriminate.
Defined.

(** ** The end of a scroll cycle *)

Lemma substring_append_left (a b : string) :
  forall n m, (n + m <= String.length a)%nat ->
  String.substring n m (a ++ b) = String.substring n m a.
Proof.
  induction a as [| c a IH]; intros n m H; cbn [String.length] in H.
  - assert (n = 0%nat) by lia; assert (m = 0%nat) by lia; subst.
    destruct b; reflexivity.
  - destruct n as [| n]; cbn [append String.substring].
    + destruct m as [| m]; [reflexivity |].
      rewrite IH by lia; reflexivity.
    + apply IH; lia.
Qed.

Lemma substring_append_right (a b : string) (n m : nat) :
  String.substring (String.length a + n) m (a ++ b) = String.substring n m b.
Proof.
  induction a as [| c a IH]; [reflexivity |].
  cbn [String.length append Nat.add String.substring]; exact IH.
Qed.

Lemma spec_window_start (title : string) :
  16 < WString.len title ->
  spec_window title 0 = String.substring 0 16 title.
Proof.
  intros Hlen; unfold spec_window, virtualBuffer.
  apply substring_append_left.
  unfold WString.len in Hlen; lia.
Qed.

Lemma spec_window_second_copy (title : string) :
  16 < WString.len title ->
  spec_window title (WString.len title + 3) = String.substring 0 16 title.
Proof.
  intros Hlen; unfold spec_window, virtualBuffer.
  rewrite <- append_assoc.
  replace (Z.to_nat (WString.len title + 3))
    with (String.length (title ++ "   ") + 0)%nat
    by (rewrite length_append; unfold WString.len; cbn [String.length]; lia).
  rewrite substring_append_right; reflexivity.
Qed.

(** X11. With a long title the cursor runs up to the title length plus 3
    before it goes back to 0. At that last position the window already sits
    on the second copy of the title, so the tick shows the first 16
    characters of the title, and the tick after it, from cursor 0, shows the
    same 16 characters again: the start of the title stays for two ticks. *)
Theorem scroll_cycle_end_repeats_start (now now' : Z) (st : Engine) :
  due st now ->
  16 < WString.len (currentEventTitle st) ->
  holds_buffer (currentEventTitle st) ->
  scrollIndex st = WString.len (currentEventTitle st) + 3 ->
  let st' := final (updateLcdTitle now now' st) in
  emitted (updateLcdTitle now now' st)
  = [lcd_setCursor 0 0; lcd_print (String.substring 0 16 (currentEventTitle st))]
  /\ scrollIndex st' = 0
  /\ forall later later', due st' later ->
     emitted (updateLcdTitle later later' st')
     = [lcd_setCursor 0 0; lcd_print (String.substring 0 16 (currentEventTitle st))].
Proof.
  intros Hdue Hlen Hbuf Hidx; cbv zeta.
  assert (Hinv : scroll_inv st) by (unfold scroll_inv; lia).
  rewrite (tick_scrolling now now' st Hdue Hlen Hinv Hbuf).
  cbn [emitted final scrollIndex].
  rewrite Hidx, (spec_window_second_copy _ Hlen).
  assert (Hzero : spec_advance (currentEventTitle st)
                    (WString.len (currentEventTitle st) + 3) = 0).
  { unfold spec_advance.
    destruct (Z.ltb_spec (WString.len (currentEventTitle st) + 3)
                         (WString.len (currentEventTitle st) + 3 + 1));
      [reflexivity | lia]. }
  split; [reflexivity |]; split; [exact Hzero |].
  intros later later' Hlater.
  rewrite tick_from_zero; [| exact Hzero | exact Hlater].
  cbn [currentEventTitle].
  destruct (Z.ltb_spec 16 (WString.len (currentEventTitle st))); [| lia].
  rewrite (spec_window_start _ Hlen); reflexivity.
Qed.

Lemma scroll_cycle_end_repeats_start_witness :
  let st :=
    {| ontime_host := "example.com"; ontime_port := 443;
       currentEventTitle := "This Is A Very Long Event Title";
       lastScrollTime := 0; scrollIndex := 34 |} in
  due st 400
  /\ emitted (updateLcdTitle 400 400 st)
     = [lcd_setCursor 0 0; lcd_print "This Is A Very L"]
  /\ emitted (updateLcdTitle 800 800 (final (updateLcdTitle 400 400 st)))
     = [lcd_setCursor 0 0; lcd_print "This Is A Very L"].
Proof.
  cbv zeta.
  assert (Hdue : due {| ontime_host := "example.com"; ontime_port := 443;
                        currentEventTitle := "This Is A Very Long Event Title";
                        lastScrollTime := 0; scrollIndex := 34 |} 400)
    by (vm_compute; discriminate).
  split; [exact Hdue |].
  destruct (scroll_cycle_end_repeats_start 400 400 _ Hdue) as (A & _ & B);
    [reflexivity | vm_compute; discriminate | reflexivity |].
  split; [exact A |].
  apply (B 800 800); vm_compute; discriminate.
Defined.

(** ** The pace of the scroller *)

Lemma tick_due_stamp (now now' : Z) (st : Engine) :
  due st now ->
  lastScrollTime (final (updateLcdTitle now now' st)) = now'.
Proof.
  unfold due, updateLcdTitle, bind, read, when, set_lastScrollTime, set_scrollIndex,
    emit, ret; cbn [value final emitted].
  intros Hdue.
  destruct (Z.leb_spec scrollInterval (CInt.to_unsigned (now - lastScrollTime st)));
    [| lia].
  cbn [value final emitted currentEventTitle].
  destruct (16 <? WString.len (currentEventTitle st));
    cbn [value final emitted currentEventTitle scrollIndex lastScrollTime];
    [| reflexivity].
  destruct (CInt.to_unsigned (WString.len (currentEventTitle st) + 3)
            <? CInt.to_unsigned (CInt.wrap (scrollIndex st + 1))); reflexivity.
Qed.

(** X12. The scroller keeps its pace: a due tick stamps the time of its
    second clock reading, and any call that comes less than 400 ms after
    that stamp prints nothing and changes nothing. *)
Theorem tick_rate_limited (now now' next next' : Z) (st : Engine) :
  due st now ->
  CInt.to_unsigned (next - now') < scrollInterval ->
  let st' := final (updateLcdTitle now now' st) in
  lastScrollTime st' = now'
  /\ updateLcdTitle next next' st' = mkOutcome tt st' [].
Proof.
  intros Hdue Hsoon; cbv zeta.
  pose proof (tick_due_stamp now now' st Hdue) as Hstamp.
  split; [exact Hstamp |].
  apply tick_not_due.
  unfold due; rewrite Hstamp; lia.
Qed.

Lemma tick_rate_limited_witness :
  due scrolled 5000
  /\ CInt.to_unsigned (5399 - 5000) < scrollInterval
  /\ updateLcdTitle 5399 5399 (final (updateLcdTitle 5000 5000 scrolled))
     = mkOutcome tt (final (updateLcdTitle 5000 5000 scrolled)) [].
Proof.
  assert (Hdue : due scrolled 5000) by (vm_compute; discriminate).
  assert (Hsoon : CInt.to_unsigned (5399 - 5000) < scrollInterval) by reflexivity.
  split; [exact Hdue |]; split; [exact Hsoon |].
  apply (tick_rate_limited 5000 5000 5399 5399 scrolled Hdue Hsoon).
Defined.

(** X13. The test for a due tick measures the time since the last stamp on
    the 32-bit clock, also when [millis()] has started again from 0 in
    between: the tick is due exactly when at least 400 ms have passed. *)
Theorem due_across_clock_overflow (now : Z) (st : Engine) :
  0 <= lastScrollTime st < 4294967296 ->
  0 <= now < 4294967296 ->
  due st now <-> scrollInterval <= elapsed (lastScrollTime st) now.
Proof.
  intros Hlast Hnow.
  unfold due, elapsed, CInt.to_unsigned.
  destruct (Z.leb_spec (lastScrollTime st) now).
  - rewrite Z.mod_small by lia; reflexivity.
  - assert (E : (now - lastScrollTime st) mod 4294967296
                 = now - lastScrollTime st + 4294967296).
    { symmetry; apply (Z.mod_unique _ _ (-1)); lia. }
    rewrite E; reflexivity.
Qed.

Lemma due_across_clock_overflow_witness :
  let st :=
    {| ontime_host := "example.com"; ontime_port := 443;
       currentEventTitle := "Ontime";
       lastScrollTime := 4294967196; scrollIndex := 0 |} in
  0 <= lastScrollTime st < 4294967296
  /\ 0 <= 300 < 4294967296
  /\ elapsed (lastScrollTime st) 300 = 400
  /\ due st 300.
Proof.
  cbv zeta.
  split; [cbn [lastScrollTime]; lia |]; split; [lia |]; split; [reflexivity |].
  apply due_across_clock_overflow;
    [cbn [lastScrollTime]; lia | lia | vm_compute; discriminate].
Defined.

(** ** One turn of the socket *)

Lemma retitle_frame (newTitle : string) (st : Engine) :
  lastScrollTime (retitle newTitle st) = lastScrollTime st
  /\ ontime_host (retitle newTitle st) = ontime_host st
  /\ ontime_port (retitle newTitle st) = ontime_port st
  /\ (retitle newTitle st = st \/ scrollIndex (retitle newTitle st) = 0).
Proof.
  unfold retitle.
  destruct (newTitle =? currentEventTitle st)%string; cbn; auto.
Qed.

Lemma webSocketEvent_frame
    (JSON_parse : string -> JSONVar) (type : WStype_t) (payload : string)
    (st : Engine) :
  let st' := final (webSocketEvent JSON_parse type payload st) in
  lastScrollTime st' = lastScrollTime st
  /\ ontime_host st' = ontime_host st
  /\ ontime_port st' = ontime_port st
  /\ (st' = st \/ scrollIndex st' = 0).
Proof.
  cbv zeta.
  destruct type; try (repeat split; left; reflexivity).
  cbn [webSocketEvent].
  destruct (onText_final (JSON_parse payload) st) as [E | E]; rewrite E.
  - repeat split; left; reflexivity.
  - apply retitle_frame.
Qed.

Lemma webSocket_loop_frame (JSON_parse : string -> JSONVar)
    (events : list (WStype_t * string)) :
  forall st,
  let st' := final (webSocket_loop JSON_parse events st) in
  lastScrollTime st' = lastScrollTime st
  /\ ontime_host st' = ontime_host st
  /\ ontime_port st' = ontime_port st
  /\ (st' = st \/ scrollIndex st' = 0).
Proof.
  induction events as [| [type payload] rest IH]; intros st; cbv zeta.
  - repeat split; left; reflexivity.
  - cbn [webSocket_loop]; unfold bind; cbn [final].
    destruct (webSocketEvent_frame JSON_parse type payload st)
      as (L1 & H1 & P1 & C1).
    destruct (IH (final (webSocketEvent JSON_parse type payload st)))
      as (L2 & H2 & P2 & C2).
    repeat split; try congruence.
    destruct C2 as [C2 | C2]; [| right; exact C2].
    rewrite C2; exact C1.
Qed.

(** X14. However many events the socket delivers in one turn, they leave
    the stamp of the scroller, the host and the port alone, so whether the
    tick that follows is due does not depend on the messages; and the
    outputs of a turn of [loop] are those of the events followed by those
    of the tick. *)
Theorem socket_turn_keeps_clock (JSON_parse : string -> JSONVar)
    (events : list (WStype_t * string)) (now now' : Z) (st : Engine) :
  let st' := final (webSocket_loop JSON_parse events st) in
  lastScrollTime st' = lastScrollTime st
  /\ ontime_host st' = ontime_host st
  /\ ontime_port st' = ontime_port st
  /\ (due st' now <-> due st now)
  /\ emitted (loop JSON_parse events now now' st)
     = (emitted (webSocket_loop JSON_parse events st)
        ++ emitted (updateLcdTitle now now' st'))%list.
Proof.
  cbv zeta.
  destruct (webSocket_loop_frame JSON_parse events st) as (L & H & P & _).
  repeat split; try assumption; unfold due; rewrite L; auto.
Qed.

(** X15. When the events of one turn leave another title on display than
    the turn began with, the cursor is at 0 after them, and the tick of the
    same turn, if due, shows the new title from its first character. *)
Theorem title_change_shows_from_start (JSON_parse : string -> JSONVar)
    (events : list (WStype_t * string)) (now now' : Z) (st : Engine) :
  let st' := final (webSocket_loop JSON_parse events st) in
  currentEventTitle st' <> currentEventTitle st ->
  scrollIndex st' = 0
  /\ (due st' now ->
      emitted (updateLcdTitle now now' st')
      = [lcd_setCursor 0 0;
         lcd_print (if 16 <? WString.len (currentEventTitle st')
                    then String.substring 0 16 (currentEventTitle st')
                    else fit16 (currentEventTitle st'))]).
Proof.
  cbv zeta; intros Hnew.
  destruct (webSocket_loop_frame JSON_parse events st) as (_ & _ & _ & [C | C]).
  - rewrite C in Hnew; contradiction.
  - split; [exact C |].
    intros Hdue.
    rewrite (tick_from_zero now now' _ C Hdue).
    destruct (Z.ltb_spec 16
                (WString.len (currentEventTitle
                                (final (webSocket_loop JSON_parse events st)))));
      [rewrite spec_window_start by assumption |]; reflexivity.
Qed.

Lemma title_change_shows_from_start_witness :
  let events := [(WStype_CONNECTED, ""); (WStype_TEXT, "full")] in
  let st' := final (webSocket_loop sample_parse events scrolled) in
  currentEventTitle st' <> currentEventTitle scrolled
  /\ scrollIndex st' = 0
  /\ emitted (updateLcdTitle 5000 5000 st')
     = [lcd_setCursor 0 0; lcd_print "Keynote         "].
Proof.
  cbv zeta.
  assert (Hnew : currentEventTitle
                   (final (webSocket_loop sample_parse
                             [(WStype_CONNECTED, ""); (WStype_TEXT, "full")] scrolled))
                 <> currentEventTitle scrolled) by (vm_compute; discriminate).
  split; [exact Hnew |].
  destruct (title_change_shows_from_start sample_parse
              [(WStype_CONNECTED, ""); (WStype_TEXT, "full")] 5000 5000 scrolled Hnew)
    as [Z0 T].
  split; [exact Z0 |].
  rewrite T by (vm_compute; discriminate); reflexivity.
Defined.

(** ** The scroll cycle *)

Lemma spec_advance_mod (title : string) (idx : Z) :
  0 <= idx <= WString.len title + 3 ->
  spec_advance title idx = (idx + 1) mod (WString.len title + 4).
Proof.
  intros H; unfold spec_advance.
  destruct (Z.ltb_spec (WString.len title + 3) (idx + 1)).
  - replace (idx + 1) with (WString.len title + 4) by lia.
    rewrite Z.mod_same by lia; reflexivity.
  - rewrite Z.mod_small by lia; reflexivity.
Qed.

Lemma ticks_cursor (clock : list (Z * Z)) :
  forall st,
  16 < WString.len (currentEventTitle st) ->
  holds_buffer (currentEventTitle st) ->
  scroll_inv st ->
  all_due (lastScrollTime st) clock ->
  currentEventTitle (final (ticks clock st)) = currentEventTitle st
  /\ scrollIndex (final (ticks clock st))
     = (scrollIndex st + Z.of_nat (List.length clock))
         mod (WString.len (currentEventTitle st) + 4).
Proof.
  induction clock as [| [now now'] rest IH]; intros st Hlen Hbuf Hinv Hdue.
  - cbn [ticks ret final List.length Z.of_nat].
    split; [reflexivity |].
    unfold scroll_inv in Hinv.
    rewrite Z.add_0_r, Z.mod_small by lia; reflexivity.
  - destruct Hdue as [Hnow Hrest].
    cbn [ticks]; unfold bind; cbn [final].
    pose proof (tick_scrolling now now' st Hnow Hlen Hinv Hbuf) as Estep.
    rewrite Estep; cbn [final].
    set (st1 := {| ontime_host := ontime_host st; ontime_port := ontime_port st;
                   currentEventTitle := currentEventTitle st;
                   lastScrollTime := now';
                   scrollIndex := spec_advance (currentEventTitle st) (scrollIndex st) |}).
    assert (Hinv1 : scroll_inv st1).
    { unfold scroll_inv, st1; cbn [scrollIndex currentEventTitle].
      unfold scroll_inv in Hinv; unfold spec_advance.
      destruct (Z.ltb_spec (WString.len (currentEventTitle st) + 3)
                           (scrollIndex st + 1)); lia. }
    destruct (IH st1 Hlen Hbuf Hinv1 Hrest) as [Et Ei].
    split; [exact Et |].
    rewrite Ei; unfold st1; cbn [scrollIndex currentEventTitle].
    rewrite (spec_advance_mod _ _ Hinv).
    rewrite Z.add_mod_idemp_l by (unfold WString.len; lia).
    f_equal; cbn [List.length]; lia.
Qed.

(** X16. With a long title the cursor runs in a cycle of title length plus 4
    positions: after k due ticks it stands at (cursor + k) modulo (length +
    4), the title unchanged, so after length + 4 due ticks it is back where
    it was. *)
Theorem scroll_cycle (clock : list (Z * Z)) (st : Engine) :
  16 < WString.len (currentEventTitle st) ->
  holds_buffer (currentEventTitle st) ->
  scroll_inv st ->
  all_due (lastScrollTime st) clock ->
  let period := WString.len (currentEventTitle st) + 4 in
  currentEventTitle (final (ticks clock st)) = currentEventTitle st
  /\ scrollIndex (final (ticks clock st))
     = (scrollIndex st + Z.of_nat (List.length clock)) mod period
  /\ (Z.of_nat (List.length clock) = period ->
      scrollIndex (final (ticks clock st)) = scrollIndex st).
Proof.
  intros Hlen Hbuf Hinv Hdue; cbv zeta.
  destruct (ticks_cursor clock st Hlen Hbuf Hinv Hdue) as [Et Ei].
  split; [exact Et |]; split; [exact Ei |].
  intros Hk; rewrite Ei, Hk.
  unfold scroll_inv in Hinv.
  replace (scrollIndex st + (WString.len (currentEventTitle st) + 4))
    with (scrollIndex st + 1 * (WString.len (currentEventTitle st) + 4)) by lia.
  rewrite Z.mod_add by lia.
  apply Z.mod_small; lia.
Qed.

Lemma scroll_cycle_witness :
  let clock := [(4400, 4400); (4800, 4801); (5300, 5300)] in
  16 < WString.len (currentEventTitle scrolled)
  /\ holds_buffer (currentEventTitle scrolled)
  /\ scroll_inv scrolled
  /\ all_due (lastScrollTime scrolled) clock
  /\ scrollIndex (final (ticks clock scrolled)) = 15.
Proof.
  cbv zeta.
  assert (Hlen : 16 < WString.len (currentEventTitle scrolled)) by reflexivity.
  assert (Hbuf : holds_buffer (currentEventTitle scrolled))
    by (vm_compute; discriminate).
  assert (Hinv : scroll_inv scrolled) by (vm_compute; split; discriminate).
  assert (Hdue : all_due (lastScrollTime scrolled)
                   [(4400, 4400); (4800, 4801); (5300, 5300)])
    by (vm_compute; repeat split; discriminate).
  repeat (split; [assumption |]).
  destruct (scroll_cycle _ scrolled Hlen Hbuf Hinv Hdue) as (_ & Ei & _).
  rewrite Ei; reflexivity.
Defined.

(** ** Row 0 in every reachable state *)

(** X17. In every state the sketch can reach, a due tick writes row 0 once,
    from column 0, with exactly 16 characters, whether the title is short or
    long. *)
Theorem title_row_always_full
    (JSON_parse : string -> JSONVar) (now now' : Z) (st : Engine) :
  reachable JSON_parse st ->
  holds_buffer (currentEventTitle st) ->
  due st now ->
  exists row,
    emitted (updateLcdTitle now now' st) = [lcd_setCursor 0 0; lcd_print row]
    /\ String.length row = 16%nat.
Proof.
  intros Hreach Hbuf Hdue.
  pose proof (reachable_scroll_inv JSON_parse st Hreach) as Hinv.
  destruct (Z.ltb_spec 16 (WString.len (currentEventTitle st))) as [Hlong | Hshort].
  - rewrite (tick_scrolling now now' st Hdue Hlong Hinv Hbuf); cbn [emitted].
    eexists; split; [reflexivity |].
    apply length_spec_window; assumption.
  - rewrite (tick_static now now' st Hdue Hshort); cbn [emitted].
    eexists; split; [reflexivity | apply length_fit16].
Qed.

Lemma title_row_always_full_witness :
  let st := final (webSocketEvent sample_parse WStype_TEXT "full" boot) in
  reachable sample_parse st
  /\ holds_buffer (currentEventTitle st)
  /\ due st 400
  /\ exists row,
       emitted (updateLcdTitle 400 400 st) = [lcd_setCursor 0 0; lcd_print row]
       /\ String.length row = 16%nat.
Proof.
  cbv zeta.
  assert (Hreach : reachable sample_parse
                     (final (webSocketEvent sample_parse WStype_TEXT "full" boot)))
    by (apply reach_event; apply (reach_setup sample_parse "example.com" 443)).
  assert (Hbuf : holds_buffer
                   (currentEventTitle
                      (final (webSocketEvent sample_parse WStype_TEXT "full" boot))))
    by (vm_compute; discriminate).
  assert (Hdue : due (final (webSocketEvent sample_parse WStype_TEXT "full" boot)) 400)
    by (vm_compute; discriminate).
  repeat (split; [assumption |]).
  apply (title_row_always_full sample_parse 400 400 _ Hreach Hbuf Hdue).
Defined.

(** ** The configuration file *)


